(** * lightstreamer_client: the subscription decode protocol and the
      session / stream state machine

    A shallow embedding of [lightstreamer_client/__init__.py].

    Conventions of the embedding.
    - A Python [str] is a Rocq [string]; its characters are read as the code
      points below 256.
    - A field value is [None] or a [str]: [option string].
    - A [dict] is a [gmap]; [dict(pairs)] inserts the pairs from left to
      right, so the last pair of a repeated key wins.
    - Python integers are unbounded: [Z].
    - Exceptions are the instances of [Exception] the code meets; a function
      that can raise returns the state it reached together with either its
      value or the exception.
    - The transport is outside the code: what [urlopen] will answer is a
      script carried by the client, every response is a finite list of
      lines, and the requests made are recorded.
    - A thread is recorded when it is started, and its body, [_receive], is
      run as an operation of its own.
    - A listener is called with the event and returns or raises; it changes
      neither the client nor the subscription.
    - A subscription is stored in the client by value.
    - [int] puts no bound on the number of digits. *)

From Stdlib Require Import ZArith String Ascii List Bool Lia.
From stdpp Require Import base option gmap strings list fin_maps sorting.

Local Open Scope string_scope.
Local Open Scope Z_scope.

(** ** Python strings *)

Module PyStr.

Definition code (c : ascii) : N := N_of_ascii c.

(** [str.isspace] on one character, for the code points below 256. *)
Definition is_space (c : ascii) : bool :=
  let n := code c in
  ((9 <=? n) && (n <=? 13) || (28 <=? n) && (n <=? 32)
   || (n =? 133) || (n =? 160))%N.

Definition char_in (c : ascii) (set : list ascii) : bool :=
  existsb (Ascii.eqb c) set.

(** [s.lstrip(chars)] and [s.rstrip(chars)] with the characters to drop
    given as a predicate. *)
Fixpoint lstrip_by (p : ascii -> bool) (s : string) : string :=
  match s with
  | EmptyString => EmptyString
  | String c r => if p c then lstrip_by p r else s
  end.

Fixpoint rstrip_by (p : ascii -> bool) (s : string) : string :=
  match s with
  | EmptyString => EmptyString
  | String c r =>
      match rstrip_by p r with
      | EmptyString => if p c then EmptyString else String c EmptyString
      | r' => String c r'
      end
  end.

Definition rstrip (s : string) : string := rstrip_by is_space s.
Definition strip (s : string) : string := lstrip_by is_space (rstrip s).

(** [s.rstrip('\r\n')]. *)
Definition rstrip_crlf (s : string) : string :=
  rstrip_by (fun c => char_in c ["013"%char; "010"%char]) s.

(** [s.split(sep)] for a one-character separator. *)
Fixpoint split (sep : ascii) (s : string) : list string :=
  match s with
  | EmptyString => [EmptyString]
  | String c r =>
      if Ascii.eqb c sep then EmptyString :: split sep r
      else match split sep r with
           | [] => [String c EmptyString]
           | t :: ts => String c t :: ts
           end
  end.

(** [s.split(sep, 1)]. *)
Fixpoint split1 (sep : ascii) (s : string) : list string :=
  match s with
  | EmptyString => [EmptyString]
  | String c r =>
      if Ascii.eqb c sep then [EmptyString; r]
      else match split1 sep r with
           | [] => [String c EmptyString]
           | t :: ts => String c t :: ts
           end
  end.

(** [s.startswith(p)]. *)
Definition startswith (s p : string) : bool := String.prefix p s.

(** [sep.join(l)]. *)
Fixpoint join (sep : string) (l : list string) : string :=
  match l with
  | [] => EmptyString
  | [x] => x
  | x :: r => x ++ sep ++ join sep r
  end.

Definition digit_val (c : ascii) : option Z :=
  let n := code c in
  if ((48 <=? n) && (n <=? 57))%N then Some (Z.of_N n - 48) else None.

(** The digits of [int(s)] after the sign: groups of decimal digits
    separated by single underscores.  [acc] is the value read so far,
    [after_digit] tells whether the previous character was a digit. *)
Fixpoint digits (acc : Z) (after_digit : bool) (s : string) : option Z :=
  match s with
  | EmptyString => if after_digit then Some acc else None
  | String c r =>
      match digit_val c with
      | Some d => digits (10 * acc + d) true r
      | None =>
          if Ascii.eqb c "_"%char && after_digit then digits acc false r
          else None
      end
  end.

(** [int(s)]: [None] stands for [ValueError]. *)
Definition int (s : string) : option Z :=
  match strip s with
  | String "+" r => digits 0 false r
  | String "-" r => Z.opp <$> digits 0 false r
  | t => digits 0 false t
  end.

End PyStr.

(** ** Exceptions and the state-and-exception monad *)

(** The exception classes the code meets, all of them instances of
    [Exception].  [OtherError] is an exception raised by a collaborator: the
    transport ([urlopen], [readline], [decode]) or a listener. *)
Inductive exn : Type :=
  | ValueError
  | IndexError
  | KeyError
  | TypeError
  | AttributeError
  | IOError
  | OtherError (what : string).

Inductive res (A : Type) : Type :=
  | Ok (a : A)
  | Raise (e : exn).
Arguments Ok {A} a.
Arguments Raise {A} e.

(** A method working on a mutable object of type [S]: the object as the call
    leaves it, and the value returned or the exception raised.  What was
    assigned before a [raise] stays assigned. *)
Definition M (S A : Type) : Type := S -> S * res A.

Definition ret {S A} (a : A) : M S A := fun s => (s, Ok a).
Definition raise {S A} (e : exn) : M S A := fun s => (s, Raise e).
Definition and_then {S A B} (m : M S A) (k : A -> M S B) : M S B :=
  fun s => match m s with
           | (s', Ok a) => k a s'
           | (s', Raise e) => (s', Raise e)
           end.
Definition get {S} : M S S := fun s => (s, Ok s).
Definition gets {S A} (f : S -> A) : M S A := fun s => (s, Ok (f s)).
Definition modify {S} (f : S -> S) : M S unit := fun s => (f s, Ok tt).

(** [try: body / except Exception: handler]. *)
Definition try_except {S A} (body : M S A) (handler : exn -> M S A) : M S A :=
  fun s => match body s with
           | (s', Ok a) => (s', Ok a)
           | (s', Raise e) => handler e s'
           end.

(** A value that may be missing, with the exception its absence raises. *)
Definition or_raise {S A} (e : exn) (o : option A) : M S A :=
  match o with
  | Some a => ret a
  | None => raise e
  end.

(** [preserves I m]: the state [m] leaves satisfies [I] when the state it
    started from does, whether [m] returns or raises. *)
Definition preserves {S A} (I : S -> Prop) (m : M S A) : Prop :=
  forall s, I s -> I (m s).1.

(** [never_raises m]: [m] returns, on every state. *)
Definition never_raises {S A} (m : M S A) : Prop :=
  forall s, exists a, (m s).2 = Ok a.

Declare Scope py_scope.
Delimit Scope py_scope with py.
Notation "'let*' x ':=' m 'in' k" := (and_then m (fun x => k))
  (at level 10, x pattern, m at level 100, k at level 200) : py_scope.
Notation "m '>>' k" := (and_then m (fun _ => k))
  (at level 61, left associativity) : py_scope.
Local Open Scope py_scope.

(** ** Python containers *)

(** [l[i]]: indices from [-len(l)] to [len(l) - 1]; [None] stands for
    [IndexError]. *)
Definition py_index {A} (l : list A) (i : Z) : option A :=
  let n := Z.of_nat (length l) in
  if (0 <=? i) && (i <? n) then l !! Z.to_nat i
  else if (- n <=? i) && (i <? 0) then l !! Z.to_nat (n + i)
  else None.

(** [dict(pairs)]. *)
Definition dict `{Countable K} {V} (pairs : list (K * V)) : gmap K V :=
  foldl (fun m kv => <[kv.1 := kv.2]> m) ∅ pairs.

(** [d.get(k)] for a dictionary of field values: [None] when [k] is
    missing. *)
Definition dict_get (d : gmap string (option string)) (k : string)
  : option string :=
  default None (d !! k).

(** ** LightStreamerSubscription *)

(** The event passed to the listeners. *)
Record item_info : Type := {
  pos : Z;
  name : string;
  values : gmap string (option string);
}.

(** A listener is called with the event; it returns, or raises. *)
Definition listener : Type := item_info -> option exn.

Record LightStreamerSubscription : Type := {
  item_names : list string;
  _items_map : gmap Z (gmap string (option string));
  field_names : list string;
  adapter : string;
  mode : string;
  snapshot : bool;
  _listeners : list listener;
  notify_new_values : bool;
  (** The calls made to the listeners so far, oldest first: the index of the
      listener and the event it was given. *)
  notified : list (nat * item_info);
}.

Definition set_items_map (m : gmap Z (gmap string (option string)))
  (self : LightStreamerSubscription) : LightStreamerSubscription :=
  {| item_names := item_names self; _items_map := m;
     field_names := field_names self; adapter := adapter self;
     mode := mode self; snapshot := snapshot self;
     _listeners := _listeners self;
     notify_new_values := notify_new_values self;
     notified := notified self |}.

Definition record_call (i : nat) (e : item_info)
  (self : LightStreamerSubscription) : LightStreamerSubscription :=
  {| item_names := item_names self; _items_map := _items_map self;
     field_names := field_names self; adapter := adapter self;
     mode := mode self; snapshot := snapshot self;
     _listeners := _listeners self;
     notify_new_values := notify_new_values self;
     notified := notified self ++ [(i, e)] |}.

(** The subscription after the calls [cs] to its listeners. *)
Definition add_calls (cs : list (nat * item_info))
  (self : LightStreamerSubscription) : LightStreamerSubscription :=
  {| item_names := item_names self; _items_map := _items_map self;
     field_names := field_names self; adapter := adapter self;
     mode := mode self; snapshot := snapshot self;
     _listeners := _listeners self;
     notify_new_values := notify_new_values self;
     notified := notified self ++ cs |}.

(** [LightStreamerSubscription.__init__]. *)
Definition new_subscription (mode : string) (items fields : list string)
  (adapter : string) (snapshot notify_new_values : bool)
  : LightStreamerSubscription :=
  {| item_names := items; _items_map := ∅; field_names := fields;
     adapter := adapter; mode := mode; snapshot := snapshot;
     _listeners := []; notify_new_values := notify_new_values;
     notified := [] |}.

Definition add_listener (l : listener) (self : LightStreamerSubscription)
  : LightStreamerSubscription :=
  {| item_names := item_names self; _items_map := _items_map self;
     field_names := field_names self; adapter := adapter self;
     mode := mode self; snapshot := snapshot self;
     _listeners := _listeners self ++ [l];
     notify_new_values := notify_new_values self;
     notified := notified self |}.

(** [_decode(value, last)]. *)
Definition _decode (value : string) (last : option string) : option string :=
  if String.eqb value "$" then Some ""
  else if String.eqb value "#" then None
  else match value with
       | EmptyString => last
       | String c r =>
           if PyStr.char_in c ["#"%char; "$"%char] then Some r
           else Some value
       end.

(** [for on_item_update in self._listeners: on_item_update(item_info)],
    from the listener of index [i] on. *)
Fixpoint call_listeners (i : nat) (ls : list listener) (e : item_info)
  : M LightStreamerSubscription unit :=
  match ls with
  | [] => ret tt
  | l :: rest =>
      modify (record_call i e) >>
      match l e with
      | Some err => raise err
      | None => call_listeners (S i) rest e
      end
  end.

(** [notify_update(item_line)]. *)
Definition notify_update (item_line : string)
  : M LightStreamerSubscription unit :=
  let tokens := PyStr.split "|" (PyStr.rstrip_crlf item_line) in
  let* item_pos := or_raise ValueError (PyStr.int (hd "" tokens)) in
  let* names := gets item_names in
  let* item_name := or_raise IndexError (py_index names (item_pos - 1)) in
  let* self := get in
  let* item_values :=
    if notify_new_values self then
      let undecoded_item : gmap string string :=
        dict (filter (fun kv => kv.2 <> "")
                (zip (field_names self) (tl tokens))) in
      ret (Some <$> undecoded_item)
    else
      let undecoded_item : gmap string string :=
        dict (zip (field_names self) (tl tokens)) in
      let curr_item := default ∅ (_items_map self !! item_pos) in
      let decoded :=
        map_imap (fun k v => Some (_decode v (dict_get curr_item k)))
          undecoded_item in
      modify (set_items_map (<[item_pos := decoded]> (_items_map self))) >>
      ret decoded in
  let item_info :=
    {| pos := item_pos; name := item_name; values := item_values |} in
  let* self := get in
  call_listeners 0 (_listeners self) item_info.

(** The parts of [notify_update] that the statements below name: the tokens
    of the line, the position it gives, and the dictionary that the merge
    stores for the item. *)
Definition line_tokens (item_line : string) : list string :=
  PyStr.split "|" (PyStr.rstrip_crlf item_line).

Definition line_position (item_line : string) : option Z :=
  PyStr.int (hd "" (line_tokens item_line)).

Definition merged (self : LightStreamerSubscription) (item_pos : Z)
  (item_line : string) : gmap string (option string) :=
  let curr_item := default ∅ (_items_map self !! item_pos) in
  map_imap (fun k v => Some (_decode v (dict_get curr_item k)))
    (dict (zip (field_names self) (tl (line_tokens item_line)))).

(** The cached value of a field of an item: [None] when the item or the
    field has no entry, [Some v] when the entry holds [v]. *)
Definition cached (self : LightStreamerSubscription) (item_pos : Z)
  (field : string) : option (option string) :=
  _items_map self !! item_pos ≫= (.!! field).

(** The calls to the listeners made since [before]. *)
Definition new_calls (before after : LightStreamerSubscription)
  : list (nat * item_info) :=
  drop (length (notified before)) (notified after).

(** ** The transport, as the client sees it *)

(** A parsed URL: the scheme and the rest of the address. *)
Record url : Type := { scheme : string; address : string }.

(** A value of a request parameter. *)
Inductive param : Type :=
  | PStr (s : string)
  | PInt (n : Z)
  | PBool (b : bool).

(** [if v] on a parameter value. *)
Definition truthy (v : param) : bool :=
  match v with
  | PStr s => negb (String.eqb s "")
  | PInt n => negb (n =? 0)
  | PBool b => b
  end.

(** One [readline()] on a response: a line of text, or a failure of the
    transport or of the decoding. *)
Inductive read_event : Type :=
  | Line (text : string)
  | ReadFail (e : exn).

(** The outcome of one [urlopen]: a response, given by its lines, or a
    failure. *)
Inductive call_result : Type :=
  | Response (body : list read_event)
  | CallFail (e : exn).

(** A POST as [_call] issues it: the base URL, the path joined to it and the
    parameters kept by [_encode_params]. *)
Record request : Type := {
  req_base : url;
  req_path : string;
  req_body : list (string * param);
}.

(** A thread running [_receive]: the bind counter in its name, and whether
    its body is still to run. *)
Record thread : Type := { thread_number : Z; alive : bool }.

Inductive log_level : Type := INFO | WARNING | ERROR.

(** A record of the log, or a traceback printed on the standard output.
    The [debug] records are left out, and so are the arguments that are
    URLs. *)
Inductive output_record : Type :=
  | Log (level : log_level) (msg : string) (args : list param)
  | Traceback (e : exn).

Definition CONNECTION_URL_PATH := "lightstreamer/create_session.txt".
Definition BIND_URL_PATH := "lightstreamer/bind_session.txt".
Definition CONTROL_URL_PATH := "lightstreamer/control.txt".
Definition OP_ADD := "add".
Definition OP_DELETE := "delete".
Definition OP_DESTROY := "destroy".
Definition PROBE_CMD := "PROBE".
Definition END_CMD := "END".
Definition LOOP_CMD := "LOOP".
Definition ERROR_CMD := "ERROR".
Definition SYNC_ERROR_CMD := "SYNC ERROR".
Definition OK_CMD := "OK".

(** ** LightStreamerClient *)

Record LightStreamerClient : Type := {
  _ls_username : string;
  _ls_token : string;
  _ls_url : url;
  _adapter_set : string;
  _session : gmap string string;
  _subscriptions : gmap Z LightStreamerSubscription;
  _current_subscription_key : Z;
  _stream_connection : option (list read_event);
  (** The [Thread] object, as its index in [threads]. *)
  _stream_connection_thread : option nat;
  _bind_counter : Z;
  (** [None]: the attribute is not set yet. *)
  _control_url : option url;
  (** What the next calls of [urlopen] will return, in order. *)
  network : list call_result;
  (** The requests made so far, oldest first. *)
  requests : list request;
  (** The threads started so far, oldest first. *)
  threads : list thread;
  (** What was logged and printed so far, oldest first. *)
  output : list output_record;
}.

Definition set_session (v : gmap string string) (self : LightStreamerClient)
  : LightStreamerClient :=
  {| _ls_username := _ls_username self; _ls_token := _ls_token self;
     _ls_url := _ls_url self; _adapter_set := _adapter_set self;
     _session := v; _subscriptions := _subscriptions self;
     _current_subscription_key := _current_subscription_key self;
     _stream_connection := _stream_connection self;
     _stream_connection_thread := _stream_connection_thread self;
     _bind_counter := _bind_counter self; _control_url := _control_url self;
     network := network self; requests := requests self;
     threads := threads self; output := output self |}.

Definition set_subscriptions (v : gmap Z LightStreamerSubscription)
  (self : LightStreamerClient) : LightStreamerClient :=
  {| _ls_username := _ls_username self; _ls_token := _ls_token self;
     _ls_url := _ls_url self; _adapter_set := _adapter_set self;
     _session := _session self; _subscriptions := v;
     _current_subscription_key := _current_subscription_key self;
     _stream_connection := _stream_connection self;
     _stream_connection_thread := _stream_connection_thread self;
     _bind_counter := _bind_counter self; _control_url := _control_url self;
     network := network self; requests := requests self;
     threads := threads self; output := output self |}.

Definition set_current_subscription_key (v : Z) (self : LightStreamerClient)
  : LightStreamerClient :=
  {| _ls_username := _ls_username self; _ls_token := _ls_token self;
     _ls_url := _ls_url self; _adapter_set := _adapter_set self;
     _session := _session self; _subscriptions := _subscriptions self;
     _current_subscription_key := v;
     _stream_connection := _stream_connection self;
     _stream_connection_thread := _stream_connection_thread self;
     _bind_counter := _bind_counter self; _control_url := _control_url self;
     network := network self; requests := requests self;
     threads := threads self; output := output self |}.

Definition set_stream_connection (v : option (list read_event))
  (self : LightStreamerClient) : LightStreamerClient :=
  {| _ls_username := _ls_username self; _ls_token := _ls_token self;
     _ls_url := _ls_url self; _adapter_set := _adapter_set self;
     _session := _session self; _subscriptions := _subscriptions self;
     _current_subscription_key := _current_subscription_key self;
     _stream_connection := v;
     _stream_connection_thread := _stream_connection_thread self;
     _bind_counter := _bind_counter self; _control_url := _control_url self;
     network := network self; requests := requests self;
     threads := threads self; output := output self |}.

Definition set_stream_connection_thread (v : option nat)
  (self : LightStreamerClient) : LightStreamerClient :=
  {| _ls_username := _ls_username self; _ls_token := _ls_token self;
     _ls_url := _ls_url self; _adapter_set := _adapter_set self;
     _session := _session self; _subscriptions := _subscriptions self;
     _current_subscription_key := _current_subscription_key self;
     _stream_connection := _stream_connection self;
     _stream_connection_thread := v; _bind_counter := _bind_counter self;
     _control_url := _control_url self; network := network self;
     requests := requests self; threads := threads self;
     output := output self |}.

Definition set_bind_counter (v : Z) (self : LightStreamerClient)
  : LightStreamerClient :=
  {| _ls_username := _ls_username self; _ls_token := _ls_token self;
     _ls_url := _ls_url self; _adapter_set := _adapter_set self;
     _session := _session self; _subscriptions := _subscriptions self;
     _current_subscription_key := _current_subscription_key self;
     _stream_connection := _stream_connection self;
     _stream_connection_thread := _stream_connection_thread self;
     _bind_counter := v; _control_url := _control_url self;
     network := network self; requests := requests self;
     threads := threads self; output := output self |}.

Definition set_control_url (v : option url) (self : LightStreamerClient)
  : LightStreamerClient :=
  {| _ls_username := _ls_username self; _ls_token := _ls_token self;
     _ls_url := _ls_url self; _adapter_set := _adapter_set self;
     _session := _session self; _subscriptions := _subscriptions self;
     _current_subscription_key := _current_subscription_key self;
     _stream_connection := _stream_connection self;
     _stream_connection_thread := _stream_connection_thread self;
     _bind_counter := _bind_counter self; _control_url := v;
     network := network self; requests := requests self;
     threads := threads self; output := output self |}.

Definition set_network (v : list call_result) (self : LightStreamerClient)
  : LightStreamerClient :=
  {| _ls_username := _ls_username self; _ls_token := _ls_token self;
     _ls_url := _ls_url self; _adapter_set := _adapter_set self;
     _session := _session self; _subscriptions := _subscriptions self;
     _current_subscription_key := _current_subscription_key self;
     _stream_connection := _stream_connection self;
     _stream_connection_thread := _stream_connection_thread self;
     _bind_counter := _bind_counter self; _control_url := _control_url self;
     network := v; requests := requests self; threads := threads self;
     output := output self |}.

Definition set_requests (v : list request) (self : LightStreamerClient)
  : LightStreamerClient :=
  {| _ls_username := _ls_username self; _ls_token := _ls_token self;
     _ls_url := _ls_url self; _adapter_set := _adapter_set self;
     _session := _session self; _subscriptions := _subscriptions self;
     _current_subscription_key := _current_subscription_key self;
     _stream_connection := _stream_connection self;
     _stream_connection_thread := _stream_connection_thread self;
     _bind_counter := _bind_counter self; _control_url := _control_url self;
     network := network self; requests := v; threads := threads self;
     output := output self |}.

Definition set_threads (v : list thread) (self : LightStreamerClient)
  : LightStreamerClient :=
  {| _ls_username := _ls_username self; _ls_token := _ls_token self;
     _ls_url := _ls_url self; _adapter_set := _adapter_set self;
     _session := _session self; _subscriptions := _subscriptions self;
     _current_subscription_key := _current_subscription_key self;
     _stream_connection := _stream_connection self;
     _stream_connection_thread := _stream_connection_thread self;
     _bind_counter := _bind_counter self; _control_url := _control_url self;
     network := network self; requests := requests self; threads := v;
     output := output self |}.

Definition set_output (v : list output_record) (self : LightStreamerClient)
  : LightStreamerClient :=
  {| _ls_username := _ls_username self; _ls_token := _ls_token self;
     _ls_url := _ls_url self; _adapter_set := _adapter_set self;
     _session := _session self; _subscriptions := _subscriptions self;
     _current_subscription_key := _current_subscription_key self;
     _stream_connection := _stream_connection self;
     _stream_connection_thread := _stream_connection_thread self;
     _bind_counter := _bind_counter self; _control_url := _control_url self;
     network := network self; requests := requests self;
     threads := threads self; output := v |}.

(** [LightStreamerClient.__init__]; [net] is what the server will answer. *)
Definition new_client (ls_username ls_token : string) (ls_url : url)
  (adapter_set : string) (net : list call_result) : LightStreamerClient :=
  {| _ls_username := ls_username; _ls_token := ls_token; _ls_url := ls_url;
     _adapter_set := adapter_set; _session := ∅; _subscriptions := ∅;
     _current_subscription_key := 0; _stream_connection := None;
     _stream_connection_thread := None; _bind_counter := 0;
     _control_url := None; network := net; requests := []; threads := [];
     output := [] |}.

(** ** Loops that read a connection *)

(** [while True: body], where [body] answers [Some a] to leave the loop with
    [a] and [None] to go round again.  The loops of the client read one line
    of a finite response each time round, so a budget of rounds one above the
    number of lines left is never used up; [while_true] answers [None] if it
    were. *)
Fixpoint while_true {S A} (budget : nat) (body : M S (option A))
  : M S (option A) :=
  match budget with
  | O => ret None
  | Datatypes.S n =>
      let* r := body in
      match r with
      | Some a => ret (Some a)
      | None => while_true n body
      end
  end.

Definition run_loop {S A} (measure : S -> nat) (body : M S (option A))
  : M S A :=
  fun s =>
    match while_true (Datatypes.S (measure s)) body s with
    | (s', Ok (Some a)) => (s', Ok a)
    | (s', Ok None) => (s', Raise (OtherError "loop budget used up"))
    | (s', Raise e) => (s', Raise e)
    end.

(** The lines not yet read from the stream connection. *)
Definition pending_lines (self : LightStreamerClient) : nat :=
  match _stream_connection self with
  | Some evs => length evs
  | None => 0%nat
  end.

(** ** The methods of the client *)

Definition log (level : log_level) (msg : string) (args : list param)
  : M LightStreamerClient unit :=
  modify (fun self => set_output (output self ++ [Log level msg args]) self).

(** [print(traceback.format_exc())]. *)
Definition print_traceback (e : exn) : M LightStreamerClient unit :=
  modify (fun self => set_output (output self ++ [Traceback e]) self).

(** [_encode_params(params)]: only the parameters with a true value are
    sent.  The form encoding itself belongs to the transport. *)
Definition _encode_params (params : list (string * param))
  : list (string * param) :=
  List.filter (fun kv => truthy kv.2) params.
Arguments _encode_params : simpl never.

(** [_call(base_url, url, params)]. *)
Definition _call (base_url : url) (path : string)
  (params : list (string * param))
  : M LightStreamerClient (list read_event) :=
  let body := _encode_params params in
  modify (fun self =>
    set_requests
      (requests self ++
         [{| req_base := base_url; req_path := path; req_body := body |}])
      self) >>
  let* net := gets network in
  match net with
  | [] => raise (OtherError "urlopen: no answer")
  | CallFail e :: rest => modify (set_network rest) >> raise e
  | Response evs :: rest => modify (set_network rest) >> ret evs
  end.

(** [_set_control_link_url(custom_address)]. *)
Definition _set_control_link_url (custom_address : option string)
  : M LightStreamerClient unit :=
  modify (fun self =>
    match custom_address with
    | None => set_control_url (Some (_ls_url self)) self
    | Some a =>
        set_control_url
          (Some {| scheme := scheme (_ls_url self); address := a |}) self
    end).

(** [response.readline().decode("utf-8").rstrip()] on a response of its
    own. *)
Definition first_line (response : list read_event)
  : M LightStreamerClient string :=
  match response with
  | [] => ret (PyStr.rstrip "")
  | Line t :: _ => ret (PyStr.rstrip t)
  | ReadFail e :: _ => raise e
  end.

(** [_control(params)]. *)
Definition _control (params : list (string * param))
  : M LightStreamerClient string :=
  let* session := gets _session in
  let* sid := or_raise KeyError (session !! "SessionId") in
  let params := (params ++ [("LS_session", PStr sid)])%list in
  let* cu := gets _control_url in
  let* control_url := or_raise AttributeError cu in
  let* response := _call control_url CONTROL_URL_PATH params in
  first_line response.

(** [_read_from_stream()]. *)
Definition _read_from_stream : M LightStreamerClient string :=
  let* conn := gets _stream_connection in
  match conn with
  | None => raise AttributeError
  | Some [] => ret (PyStr.rstrip "")
  | Some (Line t :: rest) =>
      modify (set_stream_connection (Some rest)) >> ret (PyStr.rstrip t)
  | Some (ReadFail e :: rest) =>
      modify (set_stream_connection (Some rest)) >> raise e
  end.

(** An element of the list [lines] of [_handle_stream]: [readlines()] gives
    [bytes], the first line was decoded to a [str]. *)
Inductive line_object : Type :=
  | AsStr (s : string)
  | AsBytes (b : string).

(** [self._stream_connection.readlines()]. *)
Fixpoint all_lines (evs : list read_event)
  : list line_object * list read_event * option exn :=
  match evs with
  | [] => ([], [], None)
  | Line t :: rest =>
      let '(ls, remaining, err) := all_lines rest in
      (AsBytes t :: ls, remaining, err)
  | ReadFail e :: rest => ([], rest, Some e)
  end.

Definition readlines : M LightStreamerClient (list line_object) :=
  let* conn := gets _stream_connection in
  match conn with
  | None => raise AttributeError
  | Some evs =>
      let '(ls, remaining, err) := all_lines evs in
      modify (set_stream_connection (Some remaining)) >>
      match err with
      | Some e => raise e
      | None => ret ls
      end
  end.

(** [sep.join(lines)] on a list of objects: [None] stands for the
    [TypeError] that an item which is not a [str] raises. *)
Definition str_join (sep : string) (lines : list line_object)
  : option string :=
  PyStr.join sep <$>
    mapM (fun x => match x with AsStr s => Some s | AsBytes _ => None end)
      lines.

Definition NL : string := String "010"%char EmptyString.

(** One round of the loop of [_handle_stream] that parses the session. *)
Definition session_round : M LightStreamerClient (option unit) :=
  let* next_stream_line := _read_from_stream in
  if negb (String.eqb next_stream_line "") then
    match PyStr.split1 ":" next_stream_line with
    | [session_key; session_value] =>
        modify (fun self =>
          set_session (<[session_key := session_value]> (_session self))
            self) >>
        ret None
    | _ => raise ValueError
    end
  else ret (Some tt).

(** [threading.Thread(name=..., target=self._receive)] and [start()]. *)
Definition start_thread : M LightStreamerClient unit :=
  modify (fun self =>
    set_stream_connection_thread (Some (length (threads self)))
      (set_threads
         (threads self ++
            [{| thread_number := _bind_counter self; alive := true |}])
         self)).

(** [_handle_stream(stream_line)]. *)
Definition _handle_stream (stream_line : string)
  : M LightStreamerClient unit :=
  if String.eqb stream_line OK_CMD then
    log INFO "Successfully connected to <%s>" [] >>
    run_loop pending_lines session_round >>
    (let* session := gets _session in
     _set_control_link_url (session !! "ControlAddress")) >>
    start_thread >>
    log INFO "Started handling of real-time stream" []
  else
    let* lines := readlines in
    let lines := AsStr stream_line :: lines in
    let* text := or_raise TypeError (str_join NL lines) in
    log ERROR ("Server response error: " ++ NL ++ "%s") [PStr text] >>
    raise IOError.

(** [connect()]. *)
Definition connect : M LightStreamerClient unit :=
  let* self := get in
  let* conn :=
    _call (_ls_url self) CONNECTION_URL_PATH
      [("LS_adapter_set", PStr (_adapter_set self));
       ("LS_user", PStr (_ls_username self));
       ("LS_password", PStr (_ls_token self))] in
  modify (set_stream_connection (Some conn)) >>
  let* stream_line := _read_from_stream in
  _handle_stream stream_line.

(** [bind()]. *)
Definition bind : M LightStreamerClient unit :=
  let* cu := gets _control_url in
  let* control_url := or_raise AttributeError cu in
  let* session := gets _session in
  let* sid := or_raise KeyError (session !! "SessionId") in
  let* conn := _call control_url BIND_URL_PATH [("LS_session", PStr sid)] in
  modify (set_stream_connection (Some conn)) >>
  modify (fun self => set_bind_counter (_bind_counter self + 1) self) >>
  let* stream_line := _read_from_stream in
  _handle_stream stream_line >>
  log INFO "Bound to <%s>" [].

(** [subscribe(subscription)]. *)
Definition subscribe (subscription : LightStreamerSubscription)
  : M LightStreamerClient Z :=
  modify (fun self =>
    set_current_subscription_key (_current_subscription_key self + 1) self) >>
  modify (fun self =>
    set_subscriptions
      (<[_current_subscription_key self := subscription]>
         (_subscriptions self)) self) >>
  let* key := gets _current_subscription_key in
  let* server_response :=
    _control
      [("LS_Table", PInt key);
       ("LS_op", PStr OP_ADD);
       ("LS_snapshot", PBool (snapshot subscription));
       ("LS_data_adapter", PStr (adapter subscription));
       ("LS_mode", PStr (mode subscription));
       ("LS_schema", PStr (PyStr.join " " (field_names subscription)));
       ("LS_id", PStr (PyStr.join " " (item_names subscription)))] in
  (if String.eqb server_response OK_CMD
   then log INFO "Successfully subscribed " []
   else log WARNING "Subscription error" []) >>
  gets _current_subscription_key.

(** [unsubscribe(subscription_key)]. *)
Definition unsubscribe (subscription_key : Z) : M LightStreamerClient unit :=
  let* subscriptions := gets _subscriptions in
  if decide (is_Some (subscriptions !! subscription_key)) then
    let* server_response :=
      _control [("LS_Table", PInt subscription_key);
                ("LS_op", PStr OP_DELETE)] in
    if String.eqb server_response OK_CMD then
      modify (fun self =>
        set_subscriptions (delete subscription_key (_subscriptions self))
          self) >>
      log INFO "Successfully unsubscribed" []
    else log WARNING "Unsubscription error" []
  else log WARNING "No subscription key %s found!" [PInt subscription_key].

(** The body of the [for] of [unsubscribe_all], over the keys copied before
    the loop. *)
Fixpoint unsubscribe_keys (keys : list Z) : M LightStreamerClient unit :=
  match keys with
  | [] => ret tt
  | subscription_key :: rest =>
      let* server_response :=
        _control [("LS_Table", PInt subscription_key);
                  ("LS_op", PStr OP_DELETE)] in
      (if String.eqb server_response OK_CMD then
         modify (fun self =>
           set_subscriptions (delete subscription_key (_subscriptions self))
             self) >>
         log INFO "Successfully unsubscribed from " [PInt subscription_key]
       else
         log WARNING "Unsubscription error" [] >>
         log WARNING "Server response: " [PStr server_response]) >>
      unsubscribe_keys rest
  end.

(** [unsubscribe_all()].  The keys of [_subscriptions] come in the order of
    their insertion, which is the increasing one: [subscribe] inserts the
    counter it has just incremented, and the counter goes back to zero only
    together with an emptied dictionary. *)
Definition unsubscribe_all : M LightStreamerClient unit :=
  let* subscriptions := gets _subscriptions in
  unsubscribe_keys (merge_sort Z.le (elements (dom subscriptions))).

(** [self._subscriptions[table].m(...)]: the method works on the subscription
    stored under [table], and what it assigned stays assigned when it
    raises. *)
Definition on_subscription (table : Z) (m : M LightStreamerSubscription unit)
  : M LightStreamerClient unit :=
  fun self =>
    match _subscriptions self !! table with
    | None => (self, Raise KeyError)
    | Some sub =>
        let '(sub', r) := m sub in
        (set_subscriptions (<[table := sub']> (_subscriptions self)) self, r)
    end.

(** The [try] block of [_forward_update_message]. *)
Definition forward_body (update_message : string)
  : M LightStreamerClient unit :=
  let tok := PyStr.split1 "," update_message in
  let* table := or_raise ValueError (PyStr.int (hd "" tok)) in
  let* item := or_raise IndexError (tok !! 1%nat) in
  let* subscriptions := gets _subscriptions in
  if decide (is_Some (subscriptions !! table)) then
    on_subscription table (notify_update item)
  else log WARNING "No subscription found!" [].

(** [_forward_update_message(update_message)]. *)
Definition _forward_update_message (update_message : string)
  : M LightStreamerClient unit :=
  try_except (forward_body update_message) print_traceback.

(** What one round of the loop of [_receive] leaves in its two flags:
    [receive] still true, or [receive] false with the value of [rebind]. *)
Definition flags (receive rebind : bool) : option bool :=
  if receive then None else Some rebind.

(** The [try] block that opens a round of the loop of [_receive]: the
    message read, or [None]. *)
Definition read_message : M LightStreamerClient (option string) :=
  try_except
    (let* message := _read_from_stream in
     if String.eqb (PyStr.strip message) "" then ret None
     else ret (Some message))
    (fun e =>
       log ERROR "Communication error" [] >>
       print_traceback e >>
       ret None).

(** The chain of tests on the message that closes the round. *)
Definition on_message (message : option string)
  : M LightStreamerClient (option bool) :=
  match message with
  | None =>
      log WARNING "No new message received" [] >> ret (flags false false)
  | Some message =>
      if String.eqb message PROBE_CMD then ret (flags true false)
      else if PyStr.startswith message ERROR_CMD then
        log ERROR "ERROR" [] >> ret (flags false false)
      else if PyStr.startswith message LOOP_CMD then
        ret (flags false true)
      else if PyStr.startswith message SYNC_ERROR_CMD then
        log ERROR "SYNC ERROR" [] >> ret (flags false false)
      else if PyStr.startswith message END_CMD then
        log INFO "Connection closed by the server" [] >>
        ret (flags false false)
      else if PyStr.startswith message "Preamble" then
        ret (flags true false)
      else
        _forward_update_message message >> ret (flags true false)
  end.

(** One round of the [while receive] of [_receive]. *)
Definition receive_round : M LightStreamerClient (option bool) :=
  let* message := read_message in
  on_message message.

(** How the chain of tests of [_receive] classifies a message. *)
Inductive message_class : Type :=
  | EmptyLine
  | ProbeLine
  | ErrorLine
  | LoopLine
  | SyncErrorLine
  | EndLine
  | PreambleLine
  | DataLine.

Definition classify (message : string) : message_class :=
  if String.eqb (PyStr.strip message) "" then EmptyLine
  else if String.eqb message PROBE_CMD then ProbeLine
  else if PyStr.startswith message ERROR_CMD then ErrorLine
  else if PyStr.startswith message LOOP_CMD then LoopLine
  else if PyStr.startswith message SYNC_ERROR_CMD then SyncErrorLine
  else if PyStr.startswith message END_CMD then EndLine
  else if PyStr.startswith message "Preamble" then PreambleLine
  else DataLine.

(** The [while receive] loop of [_receive]; its value is [rebind]. *)
Definition receive_loop : M LightStreamerClient bool :=
  run_loop pending_lines receive_round.

(** The [if not rebind] branch that ends [_receive]. *)
Definition clear_session_data : M LightStreamerClient unit :=
  modify (set_stream_connection None) >>
  modify (set_session ∅) >>
  modify (set_subscriptions ∅) >>
  modify (set_current_subscription_key 0).

(** [_receive()]. *)
Definition _receive : M LightStreamerClient unit :=
  let* rebind := receive_loop in
  if negb rebind then clear_session_data else bind.

(** The body of the thread of index [i], run to its end; a thread runs
    once.  An exception that leaves [_receive] ends the thread and is
    printed. *)
Definition run_thread (i : nat) : M LightStreamerClient unit :=
  let* ths := gets threads in
  match ths !! i with
  | Some {| thread_number := n; alive := true |} =>
      modify
        (set_threads (<[i := {| thread_number := n; alive := false |}]> ths)) >>
      try_except _receive print_traceback
  | _ => ret tt
  end.

(** [_join()]: the caller waits until the thread has run. *)
Definition _join : M LightStreamerClient unit :=
  let* th := gets _stream_connection_thread in
  match th with
  | Some i => run_thread i >> modify (set_stream_connection_thread None)
  | None => ret tt
  end.

(** [disconnect()]. *)
Definition disconnect : M LightStreamerClient unit :=
  let* conn := gets _stream_connection in
  match conn with
  | Some _ =>
      _control [("LS_op", PStr OP_DESTROY)] >>
      _join >>
      log INFO "Closed session to <%s>" []
  | None => log WARNING "No connection to Light Streamer" []
  end.

(** ** Sequences of operations on one client *)

(** The calls a user of the client can make, and the run of a started
    thread. *)
Inductive operation : Type :=
  | Connect
  | Bind
  | Disconnect
  | Subscribe (subscription : LightStreamerSubscription)
  | Unsubscribe (subscription_key : Z)
  | UnsubscribeAll
  | RunThread (i : nat).

(** The client after the operation, whether the call returned or raised. *)
Definition exec (o : operation) (self : LightStreamerClient)
  : LightStreamerClient :=
  match o with
  | Connect => (connect self).1
  | Bind => (bind self).1
  | Disconnect => (disconnect self).1
  | Subscribe subscription => (subscribe subscription self).1
  | Unsubscribe subscription_key => (unsubscribe subscription_key self).1
  | UnsubscribeAll => (unsubscribe_all self).1
  | RunThread i => (run_thread i self).1
  end.

Definition exec_all (ops : list operation) (self : LightStreamerClient)
  : LightStreamerClient :=
  foldl (fun c o => exec o c) self ops.

(** The keys that the calls of [subscribe] in [ops] assign, in order: the
    key under which the subscription is registered, which is the value
    [subscribe] returns when it returns. *)
Fixpoint assigned_keys (ops : list operation) (self : LightStreamerClient)
  : list Z :=
  match ops with
  | [] => []
  | o :: rest =>
      let self' := exec o self in
      match o with
      | Subscribe _ =>
          _current_subscription_key self' :: assigned_keys rest self'
      | _ => assigned_keys rest self'
      end
  end.

(** Whether a message of this class ends the loop of [_receive] without a
    rebind. *)
Definition ends_session (c : message_class) : bool :=
  match c with
  | EmptyLine | ErrorLine | SyncErrorLine | EndLine => true
  | ProbeLine | LoopLine | PreambleLine | DataLine => false
  end.

(** The client once the next line of its stream connection is read. *)
Definition advance (rest : list read_event) (self : LightStreamerClient)
  : LightStreamerClient :=
  set_stream_connection (Some rest) self.

(** The first line of the answer to the next request, as [_control] returns
    it; [None] when the request will fail. *)
Definition control_answer (self : LightStreamerClient) : option string :=
  match network self with
  | Response [] :: _ => Some (PyStr.rstrip "")
  | Response (Line t :: _) :: _ => Some (PyStr.rstrip t)
  | _ => None
  end.

(** The client once [_control] has sent [params] for the session [sid] to
    the control link [cu]. *)
Definition sent (cu : url) (params : list (string * param)) (sid : string)
  (self : LightStreamerClient) : LightStreamerClient :=
  set_requests
    (requests self ++
       [{| req_base := cu; req_path := CONTROL_URL_PATH;
           req_body :=
             _encode_params (params ++ [("LS_session", PStr sid)])%list |}])
    self.

(** The key counter is not negative and bounds the registered keys, which
    start at one. *)
Definition well_keyed (self : LightStreamerClient) : Prop :=
  0 <= _current_subscription_key self
  /\ forall k, is_Some (_subscriptions self !! k) ->
               1 <= k <= _current_subscription_key self.

(** Starting from the counter [n], each key of the list is one more than
    the key before it, or is 1. *)
Fixpoint counts_up (n : Z) (keys : list Z) : Prop :=
  match keys with
  | [] => True
  | k :: rest => (k = n + 1 \/ k = 1) /\ counts_up k rest
  end.

(** The key counter is [n], or zero. *)
Definition kept_or_reset (n : Z) (self : LightStreamerClient) : Prop :=
  _current_subscription_key self = n \/ _current_subscription_key self = 0.

(** The client once [subscribe] has registered the subscription. *)
Definition registered (sub : LightStreamerSubscription)
  (self : LightStreamerClient) : LightStreamerClient :=
  set_subscriptions
    (<[_current_subscription_key self + 1 := sub]> (_subscriptions self))
    (set_current_subscription_key (_current_subscription_key self + 1) self).

(** The parameters of the request of [subscribe]. *)
Definition add_request (sub : LightStreamerSubscription) (key : Z)
  : list (string * param) :=
  [("LS_Table", PInt key);
   ("LS_op", PStr OP_ADD);
   ("LS_snapshot", PBool (snapshot sub));
   ("LS_data_adapter", PStr (adapter sub));
   ("LS_mode", PStr (mode sub));
   ("LS_schema", PStr (PyStr.join " " (field_names sub)));
   ("LS_id", PStr (PyStr.join " " (item_names sub)))].

(** The branch of [_handle_stream] for a first line that is not [OK]. *)
Definition refuse (stream_line : string) : M LightStreamerClient unit :=
  let* lines := readlines in
  let lines := AsStr stream_line :: lines in
  let* text := or_raise TypeError (str_join NL lines) in
  log ERROR ("Server response error: " ++ NL ++ "%s") [PStr text] >>
  raise IOError.



(** The client once [_call] has logged its request. *)
Definition requested (base : url) (path : string)
  (params : list (string * param)) (self : LightStreamerClient)
  : LightStreamerClient :=
  set_requests
    (requests self ++
       [{| req_base := base; req_path := path;
           req_body := _encode_params params |}])
    self.

(** ** Clients and subscriptions of the examples *)

(** The subscription of the examples: one item, the fields [f1] and [f2],
    merged values kept. *)
Definition two_fields : LightStreamerSubscription :=
  new_subscription "MERGE" ["item1"] ["f1"; "f2"] "" true false.

(** Two items, and a listener that returns. *)
Definition watched : LightStreamerSubscription :=
  add_listener (fun _ => None)
    (new_subscription "MERGE" ["item1"; "item2"] ["f1"; "f2"] "" true false).

(** A listener that raises. *)
Definition failing : LightStreamerSubscription :=
  add_listener (fun _ => Some (OtherError "listener"))
    (new_subscription "MERGE" ["item1"] ["f1"; "f2"] "" true false).

Definition demo_url : url :=
  {| scheme := "https"; address := "push.example.com" |}.

(** The answer of a server that accepts the session and then sends
    [lines]. *)
Definition accepted (lines : list string) : call_result :=
  Response
    (Line "OK" :: Line "SessionId:S1" :: Line "ControlAddress:ctl.example.com"
       :: Line "" :: (Line <$> lines)).

Definition ok_answer : call_result := Response [Line "OK"].

Definition demo_client (net : list call_result) : LightStreamerClient :=
  new_client "user" "token" demo_url "DEMO" net.

(** A connected client with two subscriptions: [failing] under the key 1
    and [watched] under the key 2. *)
Definition pushed : LightStreamerClient :=
  exec_all [Connect; Subscribe failing; Subscribe watched]
    (demo_client [accepted []; ok_answer; ok_answer]).

(** ** What the further properties speak of *)

(** The event of a line in the mode that keeps no cache: the tokens that are
    not empty, as they are. *)
Definition new_values (self : LightStreamerSubscription) (item_line : string)
  : gmap string (option string) :=
  Some <$> dict (filter (fun kv : string * string => kv.2 <> "")
                   (zip (field_names self) (tl (line_tokens item_line)))).

(** The calls that reach the listeners of indices [i], [i + 1], ... up to
    [i + n - 1], each with the event [e]. *)
Definition calls_from (i n : nat) (e : item_info) : list (nat * item_info) :=
  (fun j => (j, e)) <$> seq i n.

(** The table key and the item line of an update message, as
    [_forward_update_message] reads them: [None] where [int] raises and
    where the message holds no comma. *)
Definition message_table (update_message : string) : option Z :=
  PyStr.int (hd "" (PyStr.split1 "," update_message)).


(** The keys registered in [st] are registered in [c]. *)
Definition registered_keys_within (c st : LightStreamerClient) : Prop :=
  forall k, is_Some (_subscriptions st !! k) ->
            is_Some (_subscriptions c !! k).

(** A character that can open the text of an integer: white space, a sign
    or a digit. *)
Definition opens_integer (c : ascii) : bool :=
  PyStr.is_space c || Ascii.eqb c "+" || Ascii.eqb c "-"
  || match PyStr.digit_val c with Some _ => true | None => false end.

Fixpoint all_space (s : string) : bool :=
  match s with
  | EmptyString => true
  | String c r => PyStr.is_space c && all_space r
  end.

(** [s] holds the character [c]. *)
Fixpoint contains (c : ascii) (s : string) : bool :=
  match s with
  | EmptyString => false
  | String a r => Ascii.eqb a c || contains c r
  end.

(** No line of the stream connection starts with [LOOP]. *)
Definition no_loop_line (evs : list read_event) : Prop :=
  forall raw, Line raw ∈ evs -> classify (PyStr.rstrip raw) <> LoopLine.

(** The entry that a line of the handshake gives to the session: the text
    before the first colon and the text after it.  [None] for a line that
    ends the handshake or holds no colon. *)
Definition session_entry (text : string) : option (string * string) :=
  let line := PyStr.rstrip text in
  if String.eqb line "" then None
  else match PyStr.split1 ":" line with
       | [k; v] => Some (k, v)
       | _ => None
       end.

(** [session] once the entries are written in it, in order. *)
Definition with_entries (session : gmap string string)
  (entries : list (string * string)) : gmap string string :=
  foldl (fun m kv => <[kv.1 := kv.2]> m) session entries.



(** The request that [unsubscribe] and [unsubscribe_all] send for the
    key [k]. *)
Definition delete_request (cu : url) (sid : string) (k : Z) : request :=
  {| req_base := cu; req_path := CONTROL_URL_PATH;
     req_body :=
       _encode_params
         [("LS_Table", PInt k); ("LS_op", PStr OP_DELETE);
          ("LS_session", PStr sid)] |}.

(** The keys whose request the server answers with [OK], when it answers
    the requests for [keys] with [answers], in order. *)
Definition confirmed (keys : list Z) (answers : list string) : list Z :=
  omap (fun ka : Z * string =>
          if String.eqb (PyStr.rstrip ka.2) OK_CMD then Some ka.1 else None)
    (zip keys answers).

(** The keys of the subscriptions, in the order in which
    [unsubscribe_all] visits them. *)
Definition subscription_keys (self : LightStreamerClient) : list Z :=
  merge_sort Z.le (elements (dom (_subscriptions self))).

(** A subscription that keeps no cache, with a listener that returns. *)
Definition fresh_only : LightStreamerSubscription :=
  add_listener (fun _ => None)
    (new_subscription "MERGE" ["item1"] ["f1"; "f2"] "" true true).

(** The control link that the server of the examples names. *)
Definition control_address : url :=
  {| scheme := "https"; address := "ctl.example.com" |}.

(** A client that has connected, with [lines] left on its stream and
    [net] as the answers to come. *)
Definition connected (lines : list string) (net : list call_result)
  : LightStreamerClient :=
  exec Connect (demo_client (accepted lines :: net)).

(** * Properties *)

(** ** The monad *)

Section Monad_facts.
Context {S A B : Type}.

Lemma and_then_ok (m : M S A) (k : A -> M S B) s s' a :
  m s = (s', Ok a) -> and_then m k s = k a s'.
Proof. intros H. unfold and_then. now rewrite H. Qed.

Lemma and_then_raise (m : M S A) (k : A -> M S B) s s' e :
  m s = (s', Raise e) -> and_then m k s = (s', Raise e).
Proof. intros H. unfold and_then. now rewrite H. Qed.

Lemma or_raise_some (e : exn) (a : A) (s : S) :
  or_raise e (Some a) s = (s, Ok a).
Proof. reflexivity. Qed.

Lemma or_raise_none (e : exn) (s : S) :
  or_raise (A := A) e None s = (s, Raise e).
Proof. reflexivity. Qed.
End Monad_facts.

Section Preserves.
Context {S : Type} (I : S -> Prop).

Lemma preserves_ret {A} (a : A) : preserves I (ret a).
Proof. intros s H. exact H. Qed.

Lemma preserves_raise {A} (e : exn) : preserves I (raise (A := A) e).
Proof. intros s H. exact H. Qed.

Lemma preserves_get : preserves I get.
Proof. intros s H. exact H. Qed.

Lemma preserves_gets {A} (f : S -> A) : preserves I (gets f).
Proof. intros s H. exact H. Qed.

Lemma preserves_or_raise {A} (e : exn) (o : option A) :
  preserves I (or_raise e o).
Proof. destruct o; intros s H; exact H. Qed.

Lemma preserves_modify (f : S -> S) :
  (forall s, I s -> I (f s)) -> preserves I (modify f).
Proof. intros Hf s H. now apply Hf. Qed.

Lemma preserves_and_then {A B} (m : M S A) (k : A -> M S B) :
  preserves I m -> (forall a, preserves I (k a)) ->
  preserves I (and_then m k).
Proof.
  intros Hm Hk s H. unfold and_then. specialize (Hm s H).
  destruct (m s) as [s' [a|e]]; simpl in *; [now apply Hk | exact Hm].
Qed.

Lemma preserves_try_except {A} (m : M S A) (h : exn -> M S A) :
  preserves I m -> (forall e, preserves I (h e)) ->
  preserves I (try_except m h).
Proof.
  intros Hm Hh s H. unfold try_except. specialize (Hm s H).
  destruct (m s) as [s' [a|e]]; simpl in *; [exact Hm | now apply Hh].
Qed.

Lemma preserves_while_true {A} (body : M S (option A)) n :
  preserves I body -> preserves I (while_true n body).
Proof.
  intros Hb. induction n as [|n IH]; simpl.
  - apply preserves_ret.
  - apply preserves_and_then; [exact Hb|].
    intros [a|]; [apply preserves_ret | exact IH].
Qed.

Lemma preserves_run_loop {A} (measure : S -> nat) (body : M S (option A)) :
  preserves I body -> preserves I (run_loop measure body).
Proof.
  intros Hb s H. unfold run_loop.
  pose proof (preserves_while_true body (Datatypes.S (measure s)) Hb s H)
    as Hw.
  destruct (while_true _ body s) as [s' [[a|]|e]]; exact Hw.
Qed.
End Preserves.

Lemma preserves_at {S A} (I : S -> Prop) (m : M S A) s :
  preserves I m -> I s -> I (m s).1.
Proof. intros H. apply H. Qed.

(** ** Loops that read a connection *)

Section Loop.
Context {S A : Type} (measure : S -> nat) (body : M S (option A)).

(** A round that goes round again has used up some of the measure. *)
Hypothesis round_decreases :
  forall s s', body s = (s', Ok None) -> (measure s' < measure s)%nat.

Lemma while_true_enough n : forall m s,
  (measure s < n)%nat -> (measure s < m)%nat ->
  while_true n body s = while_true m body s.
Proof.
  induction n as [|n IH]; intros m s Hn Hm; [lia|].
  destruct m as [|m]; [lia|]. simpl. unfold and_then.
  destruct (body s) as [s' [[a|]|e]] eqn:Hb; try reflexivity.
  apply round_decreases in Hb. apply IH; lia.
Qed.

(** The budget is never used up. *)
Lemma while_true_answers n : forall s s',
  (measure s < n)%nat -> while_true n body s <> (s', Ok None).
Proof.
  induction n as [|n IH]; intros s s' Hn; [lia|].
  simpl. unfold and_then.
  destruct (body s) as [s1 [[a|]|e]] eqn:Hb; try discriminate.
  apply round_decreases in Hb. apply IH. lia.
Qed.

(** [run_loop] is the loop: it runs one round, leaves with the value of
    the round or its exception, and otherwise starts again. *)
Lemma run_loop_unfold s :
  run_loop measure body s =
    match body s with
    | (s', Ok (Some a)) => (s', Ok a)
    | (s', Ok None) => run_loop measure body s'
    | (s', Raise e) => (s', Raise e)
    end.
Proof.
  unfold run_loop at 1. simpl. unfold and_then.
  destruct (body s) as [s' [[a|]|e]] eqn:Hb; try reflexivity.
  unfold run_loop. apply round_decreases in Hb.
  rewrite (while_true_enough (measure s) (Datatypes.S (measure s')) s')
    by lia.
  reflexivity.
Qed.

End Loop.

(** ** Python containers *)

Lemma dict_snoc `{Countable K} {V} (l : list (K * V)) k v :
  dict (l ++ [(k, v)]) = <[k := v]> (dict l).
Proof. unfold dict. now rewrite foldl_app. Qed.

Lemma dict_lookup_None `{Countable K} {V} (l : list (K * V)) k :
  dict l !! k = None <-> k ∉ l.*1.
Proof.
  induction l as [|[k' v'] l IH] using rev_ind.
  - split; [intros _; apply not_elem_of_nil | intros _; apply lookup_empty].
  - rewrite dict_snoc, fmap_app, lookup_insert_None, IH, not_elem_of_app.
    simpl. rewrite not_elem_of_cons. split.
    + intros [? ?]. split; [done|]. split; [done | apply not_elem_of_nil].
    + intros [? [? _]]. split; congruence.
Qed.

Lemma py_index_last {A} (l : list A) : py_index l (-1) = last l.
Proof.
  destruct l as [|a l]; [reflexivity|].
  rewrite last_lookup. unfold py_index.
  remember (a :: l) as l' eqn:El.
  assert (Hn : 0 < Z.of_nat (length l')) by (subst l'; simpl length; lia).
  destruct ((0 <=? -1) && (-1 <? Z.of_nat (length l'))) eqn:E1.
  { apply andb_true_iff in E1 as [E _]. discriminate. }
  destruct ((- Z.of_nat (length l') <=? -1) && (-1 <? 0)) eqn:E2.
  - f_equal. lia.
  - apply andb_false_iff in E2 as [E|E]; [apply Z.leb_gt in E; lia|].
    discriminate.
Qed.

Lemma py_index_above {A} (l : list A) (i : Z) :
  Z.of_nat (length l) <= i -> py_index l i = None.
Proof.
  intros Hi. unfold py_index.
  assert (H1 : (i <? Z.of_nat (length l)) = false) by (apply Z.ltb_ge; lia).
  assert (H2 : (i <? 0) = false) by (apply Z.ltb_ge; lia).
  rewrite H1, H2, !andb_false_r. reflexivity.
Qed.

(** ** The listeners *)

Lemma add_calls_nil s : add_calls [] s = s.
Proof. destruct s. unfold add_calls. simpl. now rewrite app_nil_r. Qed.

Lemma add_calls_app cs1 cs2 s :
  add_calls cs2 (add_calls cs1 s) = add_calls (cs1 ++ cs2) s.
Proof. unfold add_calls. simpl. now rewrite app_assoc. Qed.

(** The dispatch only records calls, each of them with the event, and calls
    the first listener if there is one. *)
Lemma call_listeners_calls ls : forall i e s,
  exists cs,
    (call_listeners i ls e s).1 = add_calls cs s
    /\ Forall (fun c => c.2 = e) cs
    /\ (ls <> [] -> cs <> [])
    /\ ((forall l, l ∈ ls -> l e = None) ->
        (call_listeners i ls e s).2 = Ok tt /\ length cs = length ls).
Proof.
  induction ls as [|l ls IH]; intros i e s.
  - exists []. simpl. rewrite add_calls_nil. repeat split; auto.
  - simpl. unfold and_then, modify.
    destruct (l e) as [err|] eqn:Hl.
    + exists [(i, e)]. simpl. split; [reflexivity|].
      split; [repeat constructor|]. split; [discriminate|].
      intros Hall. rewrite Hall in Hl; [discriminate | apply list_elem_of_here].
    + destruct (IH (Datatypes.S i) e (record_call i e s))
        as (cs & Hst & Hall & _ & Hok).
      exists ((i, e) :: cs). rewrite Hst. split.
      { change (record_call i e s) with (add_calls [(i, e)] s).
        now rewrite add_calls_app. }
      split; [constructor; auto|]. split; [discriminate|].
      intros Hnone.
      destruct Hok as [Hr Hlen].
      { intros l' Hl'. apply Hnone. now apply list_elem_of_further. }
      split; [exact Hr | simpl; now f_equal].
Qed.

(** ** [notify_update] *)

Lemma new_calls_add_calls cs s s1 :
  notified s1 = notified s -> new_calls s (add_calls cs s1) = cs.
Proof.
  intros H. unfold new_calls, add_calls. simpl. rewrite H.
  now rewrite drop_app_length.
Qed.

(** With [notify_new_values] false, a line whose position is read and names
    an item stores the merged dictionary and dispatches it. *)
Lemma notify_update_merge s line p nm :
  notify_new_values s = false ->
  line_position line = Some p ->
  py_index (item_names s) (p - 1) = Some nm ->
  notify_update line s =
    call_listeners 0 (_listeners s)
      {| pos := p; name := nm; values := merged s p line |}
      (set_items_map (<[p := merged s p line]> (_items_map s)) s).
Proof.
  intros Hmode Hpos Hname. unfold line_position, line_tokens in Hpos.
  unfold notify_update, and_then. rewrite Hpos. simpl.
  rewrite Hname. simpl. rewrite Hmode. reflexivity.
Qed.

(** In both modes such a line gets as far as the dispatch of an event that
    carries the position and the name. *)
Lemma notify_update_dispatch s line p nm :
  line_position line = Some p ->
  py_index (item_names s) (p - 1) = Some nm ->
  exists vals s1,
    notified s1 = notified s /\ _listeners s1 = _listeners s
    /\ notify_update line s =
         call_listeners 0 (_listeners s)
           {| pos := p; name := nm; values := vals |} s1.
Proof.
  intros Hpos Hname.
  destruct (notify_new_values s) eqn:Hmode.
  - unfold line_position, line_tokens in Hpos.
    unfold notify_update, and_then. rewrite Hpos. simpl.
    rewrite Hname. simpl. rewrite Hmode. simpl.
    eexists _, s. repeat split; reflexivity.
  - rewrite (notify_update_merge s line p nm Hmode Hpos Hname).
    exists (merged s p line),
      (set_items_map (<[p := merged s p line]> (_items_map s)) s).
    repeat split; reflexivity.
Qed.


Lemma notify_update_bad_index s line p :
  line_position line = Some p ->
  py_index (item_names s) (p - 1) = None ->
  notify_update line s = (s, Raise IndexError).
Proof.
  intros Hpos Hname. unfold line_position, line_tokens in Hpos.
  unfold notify_update, and_then. rewrite Hpos. simpl. now rewrite Hname.
Qed.

Lemma notify_update_merge_effect s line p nm :
  notify_new_values s = false ->
  line_position line = Some p ->
  py_index (item_names s) (p - 1) = Some nm ->
  exists cs,
    (notify_update line s).1 =
      add_calls cs (set_items_map (<[p := merged s p line]> (_items_map s)) s)
    /\ Forall
         (fun c => c.2 = {| pos := p; name := nm; values := merged s p line |})
         cs.
Proof.
  intros Hmode Hpos Hname.
  rewrite (notify_update_merge s line p nm Hmode Hpos Hname).
  destruct (call_listeners_calls (_listeners s) 0
              {| pos := p; name := nm; values := merged s p line |}
              (set_items_map (<[p := merged s p line]> (_items_map s)) s))
    as (cs & Hst & Hall & _).
  exists cs. split; assumption.
Qed.

Lemma dict_get_cached s p f :
  dict_get (default ∅ (_items_map s !! p)) f = default None (cached s p f).
Proof.
  unfold dict_get, cached. destruct (_items_map s !! p); simpl; [done|].
  now rewrite lookup_empty.
Qed.

Lemma cached_merged s p line cs f :
  cached
    (add_calls cs (set_items_map (<[p := merged s p line]> (_items_map s)) s))
    p f
  = (fun v => _decode v (default None (cached s p f)))
      <$> dict (zip (field_names s) (tl (line_tokens line))) !! f.
Proof.
  unfold cached at 1. simpl. rewrite lookup_insert_eq. simpl.
  unfold merged. rewrite map_lookup_imap.
  destruct (dict _ !! f) as [v|]; simpl; [|done].
  now rewrite dict_get_cached.
Qed.

(** The last pair of a key decides its entry. *)
Lemma dict_lookup_last `{Countable K} {V} (l : list (K * V)) i k v :
  l !! i = Some (k, v) ->
  (forall j v', (i < j)%nat -> l !! j <> Some (k, v')) ->
  dict l !! k = Some v.
Proof.
  revert i. induction l as [|[k' v'] l IH] using rev_ind; intros i Hi Hlater.
  - now rewrite lookup_nil in Hi.
  - rewrite dict_snoc.
    destruct (decide (i = length l)) as [->|Hne].
    + rewrite lookup_app_r, Nat.sub_diag in Hi by lia.
      injection Hi as -> ->. apply lookup_insert_eq.
    + assert (Hlt : (i < length l)%nat).
      { apply lookup_lt_Some in Hi. rewrite length_app in Hi. simpl in Hi.
        lia. }
      rewrite lookup_app_l in Hi by assumption.
      assert (Hk : k' <> k).
      { intros ->. apply (Hlater (length l) v'); [assumption|].
        now rewrite lookup_app_r, Nat.sub_diag by lia. }
      rewrite lookup_insert_ne by assumption.
      apply (IH i Hi). intros j w Hj Hjl.
      apply (Hlater j w Hj).
      rewrite lookup_app_l; [assumption|]. now apply lookup_lt_Some in Hjl.
Qed.

Lemma fst_zip_take {A B} (ks : list A) (vs : list B) :
  (zip ks vs).*1 = take (length vs) ks.
Proof.
  revert vs. induction ks as [|k ks IH]; intros [|v vs]; simpl; try done.
  now rewrite IH.
Qed.

(** ** C1: the decode rule *)

(** C1.  For every previous value: ["$"] decodes to the empty string, ["#"]
    to [None], the empty token to the previous value, a longer token that
    starts with [#] or [$] to what follows that character, and any other
    non-empty token to itself. *)
Theorem decode_rules (prev : option string) :
  _decode "$" prev = Some ""
  /\ _decode "#" prev = None
  /\ _decode "" prev = prev
  /\ (forall c X, _decode (String "#" (String c X)) prev = Some (String c X))
  /\ (forall c Y, _decode (String "$" (String c Y)) prev = Some (String c Y))
  /\ (forall c Z, c <> "#"%char -> c <> "$"%char ->
        _decode (String c Z) prev = Some (String c Z)).
Proof.
  repeat split; try reflexivity.
  intros c Z H1 H2. unfold _decode. simpl.
  destruct (Ascii.eqb_spec c "$") as [->|_]; [contradiction|].
  destruct (Ascii.eqb_spec c "#") as [->|_]; [contradiction|].
  reflexivity.
Qed.

Lemma decode_rules_witness :
  _decode "Z" (Some "old") = Some "Z"
  /\ _decode "#X" (Some "old") = Some "X"
  /\ _decode "" (Some "old") = Some "old".
Proof.
  destruct (decode_rules (Some "old")) as (_ & _ & Hempty & Hhash & _ & Hlit).
  split; [apply (Hlit "Z"%char ""); discriminate|].
  split; [apply (Hhash "X"%char "") | exact Hempty].
Defined.

(** ** C10: the item position is not checked *)

(** C10.  [notify_update] does not check the position against the item
    list.  On a line with position 0 and a non-empty item list, every event
    given to a listener carries position 0 and the name of the last item, a
    listener is called if there is one, and the call returns when the
    listeners do.  On a line with a position above the number of items the
    call raises [IndexError] and changes nothing. *)
Theorem notify_update_position_unchecked (s : LightStreamerSubscription)
  (line : string) :
  (line_position line = Some 0 -> item_names s <> [] ->
   exists last_name,
     last (item_names s) = Some last_name
     /\ Forall (fun c => pos c.2 = 0 /\ name c.2 = last_name)
          (new_calls s (notify_update line s).1)
     /\ (_listeners s <> [] -> new_calls s (notify_update line s).1 <> [])
     /\ ((forall l e, l ∈ _listeners s -> l e = None) ->
         (notify_update line s).2 = Ok tt))
  /\ (forall p, line_position line = Some p ->
        Z.of_nat (length (item_names s)) < p ->
        notify_update line s = (s, Raise IndexError)).
Proof.
  split.
  - intros Hpos Hitems.
    destruct (last (item_names s)) as [nm|] eqn:Hlast.
    2:{ apply last_None in Hlast. contradiction. }
    exists nm. split; [reflexivity|].
    assert (Hname : py_index (item_names s) (0 - 1) = Some nm).
    { change (0 - 1) with (-1). now rewrite py_index_last. }
    destruct (notify_update_dispatch s line 0 nm Hpos Hname)
      as (vals & s1 & Hcalls & Hls & ->).
    destruct (call_listeners_calls (_listeners s) 0
                {| pos := 0; name := nm; values := vals |} s1)
      as (cs & -> & Hall & Hne & Hok).
    rewrite (new_calls_add_calls cs s s1 Hcalls).
    split; [|split; [exact Hne|]].
    + eapply Forall_impl; [exact Hall|]. intros c ->. split; reflexivity.
    + intros Hquiet. apply Hok. intros l Hl. now apply Hquiet.
  - intros p Hpos Habove. apply (notify_update_bad_index s line p Hpos).
    apply py_index_above. lia.
Qed.

(** ** C6: two updates of one item *)

(** C6.  On a subscription with the fields [f1, f2] (and at least one item)
    that keeps the merged values, the line ["1|A|"] followed by the line
    ["1||B"] leaves [{f1: "A", f2: "B"}] as the cached state of item 1. *)
Theorem merge_two_updates (s : LightStreamerSubscription) (f1 f2 : string) :
  field_names s = [f1; f2] ->
  notify_new_values s = false ->
  item_names s <> [] ->
  let s1 := (notify_update "1|A|" s).1 in
  let s2 := (notify_update "1||B" s1).1 in
  _items_map s2 !! 1 = Some (dict [(f1, Some "A"); (f2, Some "B")]).
Proof.
  intros Hfields Hmode Hitems s1 s2.
  assert (Hname : exists nm, py_index (item_names s) (1 - 1) = Some nm).
  { destruct (item_names s) as [|nm l]; [contradiction|]. now exists nm. }
  destruct Hname as [nm Hname].
  destruct (notify_update_merge_effect s "1|A|" 1 nm Hmode eq_refl Hname)
    as (cs1 & Hs1 & _).
  fold s1 in Hs1.
  assert (Hmode1 : notify_new_values s1 = false) by now rewrite Hs1.
  assert (Hname1 : py_index (item_names s1) (1 - 1) = Some nm)
    by now rewrite Hs1.
  destruct (notify_update_merge_effect s1 "1||B" 1 nm Hmode1 eq_refl Hname1)
    as (cs2 & Hs2 & _).
  fold s2 in Hs2.
  assert (Hc2 : forall f, cached s2 1 f =
    (fun v => _decode v (default None (cached s1 1 f)))
      <$> dict (zip (field_names s1) (tl (line_tokens "1||B"))) !! f).
  { intros f. rewrite Hs2. apply cached_merged. }
  assert (Hc1 : forall f, cached s1 1 f =
    (fun v => _decode v (default None (cached s 1 f)))
      <$> dict (zip (field_names s) (tl (line_tokens "1|A|"))) !! f).
  { intros f. rewrite Hs1. apply cached_merged. }
  assert (Hf1 : field_names s1 = [f1; f2]) by now rewrite Hs1.
  rewrite Hf1 in Hc2. rewrite Hfields in Hc1.
  change (dict (zip [f1; f2] (tl (line_tokens "1||B"))))
    with (<[f2 := "B"]> (<[f1 := ""]> (∅ : gmap string string))) in Hc2.
  change (dict (zip [f1; f2] (tl (line_tokens "1|A|"))))
    with (<[f2 := ""]> (<[f1 := "A"]> (∅ : gmap string string))) in Hc1.
  assert (Hentry : is_Some (_items_map s2 !! 1)).
  { rewrite Hs2. simpl. rewrite lookup_insert_eq. eauto. }
  destruct Hentry as [m Hm]. rewrite Hm. f_equal.
  apply map_eq. intros f.
  specialize (Hc2 f). specialize (Hc1 f).
  unfold cached in Hc2 at 1. rewrite Hm in Hc2. simpl in Hc2. rewrite Hc2.
  change (dict [(f1, Some "A"); (f2, Some "B")])
    with (<[f2 := Some "B"]>
            (<[f1 := Some "A"]> (∅ : gmap string (option string)))).
  destruct (decide (f2 = f)) as [->|Hn2].
  - now rewrite !lookup_insert_eq.
  - rewrite !(lookup_insert_ne _ f2) by assumption.
    destruct (decide (f1 = f)) as [->|Hn1].
    + rewrite !lookup_insert_eq. simpl. rewrite Hc1.
      rewrite lookup_insert_ne by congruence.
      now rewrite lookup_insert_eq.
    + rewrite !lookup_insert_ne by assumption. now rewrite !lookup_empty.
Qed.

(** ** C2: what a line leaves in the cache of its item *)

(** C2, as stated, fails: after the line ["1|A|B"] the cache of item 1 holds
    ["B"] for [f2]; the line ["1|C"] has one token for two fields, and after
    it the cache of item 1 has no entry for [f2]. *)
Lemma short_line_drops_cached_field :
  let s1 := (notify_update "1|A|B" two_fields).1 in
  let s2 := (notify_update "1|C" s1).1 in
  notify_new_values s1 = false
  /\ (length (tl (line_tokens "1|C")) < length (field_names s1))%nat
  /\ field_names s1 !! 1%nat = Some "f2"
  /\ cached s1 1 "f2" = Some (Some "B")
  /\ cached s2 1 "f2" = None
  /\ cached s2 1 "f2" <> cached s1 1 "f2".
Proof. vm_compute. repeat split; try reflexivity; try lia. discriminate. Qed.

(** C2, amended.  With [notify_new_values] false, a line that names an item
    rebuilds the cache of that item from its tokens: a field that has a
    token holds the token decoded against the value cached before (so an
    empty token keeps that value), a field that has no token has no entry,
    the other items keep their cache, and the events given to the listeners
    carry the dictionary now cached for the item. *)
Theorem notify_update_rebuilds_item_cache (s : LightStreamerSubscription)
  (line : string) (p : Z) :
  notify_new_values s = false ->
  line_position line = Some p ->
  is_Some (py_index (item_names s) (p - 1)) ->
  let tokens := tl (line_tokens line) in
  let s' := (notify_update line s).1 in
  (forall i f v,
      field_names s !! i = Some f -> tokens !! i = Some v ->
      (forall j, (i < j < length tokens)%nat -> field_names s !! j <> Some f) ->
      cached s' p f = Some (_decode v (default None (cached s p f))))
  /\ (forall f, f ∉ take (length tokens) (field_names s) ->
        cached s' p f = None)
  /\ (forall q, q <> p -> _items_map s' !! q = _items_map s !! q)
  /\ (exists m, _items_map s' !! p = Some m
        /\ Forall (fun c => values c.2 = m) (new_calls s s')).
Proof.
  intros Hmode Hpos [nm Hname] tokens s'.
  destruct (notify_update_merge_effect s line p nm Hmode Hpos Hname)
    as (cs & Hs' & Hall).
  fold s' in Hs'. rewrite Hs'. repeat split.
  - intros i f v Hf Hv Hlater. rewrite cached_merged.
    fold tokens.
    rewrite (dict_lookup_last (zip (field_names s) tokens) i f v); [done| |].
    + apply lookup_zip_with_Some. eauto.
    + intros j v' Hj Hjl. apply lookup_zip_with_Some in Hjl.
      destruct Hjl as (x & y & Hxy & Hx & Hy). injection Hxy as <- <-.
      apply (Hlater j); [|assumption].
      apply lookup_lt_Some in Hy. lia.
  - intros f Hf. rewrite cached_merged. fold tokens.
    assert (Hnone : dict (zip (field_names s) tokens) !! f = None).
    { apply dict_lookup_None. now rewrite fst_zip_take. }
    now rewrite Hnone.
  - intros q Hq. simpl. now rewrite lookup_insert_ne.
  - exists (merged s p line). split.
    + simpl. apply lookup_insert_eq.
    + rewrite new_calls_add_calls by reflexivity.
      eapply Forall_impl; [exact Hall|]. now intros c ->.
Qed.

Lemma notify_update_rebuilds_item_cache_witness :
  let s1 := (notify_update "1|A|B" two_fields).1 in
  let s2 := (notify_update "1||" s1).1 in
  cached s2 1 "f2" = Some (Some "B").
Proof.
  intros s1 s2.
  assert (Hpos : line_position "1||" = Some 1) by reflexivity.
  assert (Hname : is_Some (py_index (item_names s1) (1 - 1)))
    by (vm_compute; eauto).
  destruct (notify_update_rebuilds_item_cache s1 "1||" 1 eq_refl Hpos Hname)
    as (Hfield & _).
  subst s2.
  rewrite (Hfield 1%nat "f2" ""); [reflexivity | reflexivity | reflexivity |].
  intros j Hj. vm_compute in Hj. lia.
Defined.

(** ** What the methods of the client leave alone *)

Ltac frame_step :=
  match goal with
  | |- preserves _ (ret _) => apply preserves_ret
  | |- preserves _ (raise _) => apply preserves_raise
  | |- preserves _ get => apply preserves_get
  | |- preserves _ (gets _) => apply preserves_gets
  | |- preserves _ (or_raise _ _) => apply preserves_or_raise
  | |- preserves _ (and_then _ _) => apply preserves_and_then; [|intros ?]
  | |- preserves _ (try_except _ _) =>
      apply preserves_try_except; [|intros ?]
  | |- preserves _ (run_loop _ _) => apply preserves_run_loop
  | |- preserves _ (match ?x with _ => _ end) => destruct x
  end.

Section Frame.
Variable I : LightStreamerClient -> Prop.

(** [I] does not look at the log, nor at the requests made and the answers
    to come. *)
Hypothesis I_output : forall v s, I s -> I (set_output v s).
Hypothesis I_requests : forall v s, I s -> I (set_requests v s).
Hypothesis I_network : forall v s, I s -> I (set_network v s).

Lemma log_preserves level msg args : preserves I (log level msg args).
Proof. apply preserves_modify. intros st Hst. now apply I_output. Qed.

Lemma print_traceback_preserves e : preserves I (print_traceback e).
Proof. apply preserves_modify. intros st Hst. now apply I_output. Qed.

Lemma _call_preserves base path params :
  preserves I (_call base path params).
Proof.
  unfold _call. repeat frame_step;
    apply preserves_modify; intros st Hst; auto.
Qed.

Lemma first_line_preserves response : preserves I (first_line response).
Proof. unfold first_line. repeat frame_step. Qed.

Lemma _control_preserves params : preserves I (_control params).
Proof.
  unfold _control. repeat frame_step.
  - apply _call_preserves.
  - apply first_line_preserves.
Qed.

(** ... and holds on when a registered subscription is replaced, and when
    an entry of the subscriptions is deleted. *)
Section Subscriptions.
Hypothesis I_subscription_update :
  forall k v s,
    is_Some (_subscriptions s !! k) -> I s ->
    I (set_subscriptions (<[k := v]> (_subscriptions s)) s).
Hypothesis I_subscription_delete :
  forall k s, I s -> I (set_subscriptions (delete k (_subscriptions s)) s).

Lemma on_subscription_preserves table m :
  preserves I (on_subscription table m).
Proof.
  intros s H. unfold on_subscription.
  destruct (_subscriptions s !! table) as [sub|] eqn:Hsub; [|exact H].
  destruct (m sub) as [sub' r]. simpl.
  apply I_subscription_update; [rewrite Hsub; eauto | exact H].
Qed.

Lemma _forward_update_message_preserves message :
  preserves I (_forward_update_message message).
Proof.
  unfold _forward_update_message, forward_body. repeat frame_step.
  - apply on_subscription_preserves.
  - apply log_preserves.
  - apply print_traceback_preserves.
Qed.

Lemma unsubscribe_preserves key : preserves I (unsubscribe key).
Proof.
  unfold unsubscribe. repeat frame_step.
  - apply _control_preserves.
  - apply preserves_modify. intros st Hst.
    now apply I_subscription_delete.
  - apply log_preserves.
  - apply log_preserves.
  - apply log_preserves.
Qed.

Lemma unsubscribe_keys_preserves keys :
  preserves I (unsubscribe_keys keys).
Proof.
  induction keys as [|k keys IH]; simpl; repeat frame_step;
    try apply log_preserves; try apply _control_preserves;
    try exact IH.
  apply preserves_modify. intros st Hst. now apply I_subscription_delete.
Qed.

Lemma unsubscribe_all_preserves : preserves I unsubscribe_all.
Proof.
  unfold unsubscribe_all. repeat frame_step.
  apply unsubscribe_keys_preserves.
Qed.

Lemma on_message_preserves message : preserves I (on_message message).
Proof.
  unfold on_message. repeat frame_step; try apply log_preserves.
  apply _forward_update_message_preserves.
Qed.

(** ... nor at the stream connection. *)
Hypothesis I_stream_connection :
  forall v s, I s -> I (set_stream_connection v s).

Lemma _read_from_stream_preserves : preserves I _read_from_stream.
Proof.
  unfold _read_from_stream. repeat frame_step;
    apply preserves_modify; intros st Hst; auto.
Qed.

Lemma read_message_preserves : preserves I read_message.
Proof.
  unfold read_message. repeat frame_step;
    try apply log_preserves; try apply print_traceback_preserves.
  apply _read_from_stream_preserves.
Qed.

Lemma receive_round_preserves : preserves I receive_round.
Proof.
  unfold receive_round. repeat frame_step.
  - apply read_message_preserves.
  - apply on_message_preserves.
Qed.

Lemma receive_loop_preserves : preserves I receive_loop.
Proof. apply preserves_run_loop, receive_round_preserves. Qed.
End Subscriptions.

(** The handshake: [I] does not look at what [connect] and [bind] set,
    and holds on when an entry is written in the session. *)
Section Handshake.
Hypothesis I_stream_connection :
  forall v s, I s -> I (set_stream_connection v s).
Hypothesis I_bind_counter : forall v s, I s -> I (set_bind_counter v s).
Hypothesis I_control_url : forall v s, I s -> I (set_control_url v s).
Hypothesis I_threads : forall v s, I s -> I (set_threads v s).
Hypothesis I_thread :
  forall v s, I s -> I (set_stream_connection_thread v s).
Hypothesis I_session_entry :
  forall k v s, I s -> I (set_session (<[k := v]> (_session s)) s).

Lemma read_preserves : preserves I _read_from_stream.
Proof.
  unfold _read_from_stream. repeat frame_step;
    apply preserves_modify; intros st Hst; auto.
Qed.

Lemma session_round_preserves : preserves I session_round.
Proof.
  unfold session_round. repeat frame_step; try apply read_preserves.
  apply preserves_modify. intros st Hst. now apply I_session_entry.
Qed.

Lemma readlines_preserves : preserves I readlines.
Proof.
  unfold readlines. repeat frame_step.
  all: apply preserves_modify; intros st Hst; auto.
Qed.

Lemma _set_control_link_url_preserves custom_address :
  preserves I (_set_control_link_url custom_address).
Proof.
  apply preserves_modify. intros st Hst. destruct custom_address; auto.
Qed.

Lemma start_thread_preserves : preserves I start_thread.
Proof. apply preserves_modify. intros st Hst. auto. Qed.

Lemma _handle_stream_preserves stream_line :
  preserves I (_handle_stream stream_line).
Proof.
  unfold _handle_stream.
  repeat frame_step; try apply log_preserves;
    try apply session_round_preserves; try apply readlines_preserves;
    try apply _set_control_link_url_preserves;
    try apply start_thread_preserves.
Qed.

Lemma connect_preserves : preserves I connect.
Proof.
  unfold connect. repeat frame_step; try apply _call_preserves;
    try apply read_preserves; try apply _handle_stream_preserves.
  apply preserves_modify; intros st Hst; auto.
Qed.

Lemma bind_preserves : preserves I bind.
Proof.
  unfold bind. repeat frame_step; try apply _call_preserves;
    try apply read_preserves; try apply _handle_stream_preserves;
    try apply log_preserves;
    apply preserves_modify; intros st Hst; auto.
Qed.
End Handshake.
End Frame.

(** ** Calls that never raise *)

Lemma never_raises_ret {S A} (a : A) : never_raises (S := S) (ret a).
Proof. intros s. now exists a. Qed.

Lemma never_raises_modify {S} (f : S -> S) : never_raises (modify f).
Proof. intros s. now exists tt. Qed.

Lemma never_raises_and_then {S A B} (m : M S A) (k : A -> M S B) :
  never_raises m -> (forall a, never_raises (k a)) ->
  never_raises (and_then m k).
Proof.
  intros Hm Hk s. unfold and_then. destruct (Hm s) as [a Ha].
  destruct (m s) as [s' r]. simpl in Ha. subst r. apply Hk.
Qed.

Lemma never_raises_try_except {S A} (m : M S A) (h : exn -> M S A) :
  (forall e, never_raises (h e)) -> never_raises (try_except m h).
Proof.
  intros Hh s. unfold try_except.
  destruct (m s) as [s' [a|e]]; [now exists a | apply Hh].
Qed.

Lemma log_never_raises level msg args : never_raises (log level msg args).
Proof. apply never_raises_modify. Qed.

Lemma print_traceback_never_raises e : never_raises (print_traceback e).
Proof. apply never_raises_modify. Qed.

(** Whatever the message and the client, [_forward_update_message]
    returns. *)
Lemma _forward_update_message_returns message :
  never_raises (_forward_update_message message).
Proof. apply never_raises_try_except, print_traceback_never_raises. Qed.

Lemma read_message_returns : never_raises read_message.
Proof.
  apply never_raises_try_except. intros e.
  repeat (apply never_raises_and_then; [|intros ?]);
    auto using log_never_raises, print_traceback_never_raises,
      never_raises_ret.
Qed.

Lemma on_message_returns message : never_raises (on_message message).
Proof.
  unfold on_message. destruct message as [m|].
  - repeat match goal with
           | |- never_raises (if ?b then _ else _) => destruct b
           end;
      repeat (apply never_raises_and_then; [|intros ?]);
      auto using log_never_raises, never_raises_ret,
        _forward_update_message_returns.
  - apply never_raises_and_then; [apply log_never_raises|].
    intros ?. apply never_raises_ret.
Qed.

Lemma receive_round_returns : never_raises receive_round.
Proof.
  apply never_raises_and_then; [apply read_message_returns|].
  apply on_message_returns.
Qed.

(** ** The stream loop, one round at a time *)

Lemma rstrip_by_cons p c r :
  p c = false ->
  PyStr.rstrip_by p (String c r) = String c (PyStr.rstrip_by p r).
Proof. intros H. simpl. rewrite H. now destruct (PyStr.rstrip_by p r). Qed.

Lemma startswith_cons s c p :
  PyStr.startswith s (String c p) = true ->
  exists r, s = String c r /\ PyStr.startswith r p = true.
Proof.
  unfold PyStr.startswith. destruct s as [|c' r]; simpl; [discriminate|].
  destruct (ascii_dec c c') as [->|_]; [|discriminate].
  intros H. now exists r.
Qed.



Lemma read_message_line s raw rest :
  _stream_connection s = Some (Line raw :: rest) ->
  read_message s =
    (advance rest s,
     Ok (if String.eqb (PyStr.strip (PyStr.rstrip raw)) "" then None
         else Some (PyStr.rstrip raw))).
Proof.
  intros H. unfold read_message, try_except, _read_from_stream, and_then, gets.
  cbv beta iota. rewrite H. simpl.
  now destruct (String.eqb (PyStr.strip (PyStr.rstrip raw)) "").
Qed.

(** A message is read only from a line, and the line is then consumed. *)
Lemma read_message_some s s' m :
  read_message s = (s', Ok (Some m)) ->
  exists raw rest,
    _stream_connection s = Some (Line raw :: rest)
    /\ s' = advance rest s /\ m = PyStr.rstrip raw.
Proof.
  destruct (_stream_connection s) as [[|[raw|e] rest]|] eqn:Hc.
  - unfold read_message, try_except, _read_from_stream, and_then, gets.
    cbv beta iota. rewrite Hc. simpl. discriminate.
  - rewrite (read_message_line s raw rest Hc).
    destruct (String.eqb _ ""); [discriminate|].
    intros [= <- <-]. now exists raw, rest.
  - unfold read_message, try_except, _read_from_stream, and_then, gets.
    cbv beta iota. rewrite Hc. simpl. discriminate.
  - unfold read_message, try_except, _read_from_stream, and_then, gets.
    cbv beta iota. rewrite Hc. simpl. discriminate.
Qed.

(** When no line can be read the message is [None]. *)
Lemma read_message_no_line s :
  (forall raw rest, _stream_connection s <> Some (Line raw :: rest)) ->
  exists s', read_message s = (s', Ok None).
Proof.
  intros Hno. destruct (read_message s) as [s' [[m|]|e]] eqn:Hr.
  - apply read_message_some in Hr as (raw & rest & Hc & _).
    now apply Hno in Hc.
  - now exists s'.
  - destruct (read_message_returns s) as [a Ha]. rewrite Hr in Ha.
    discriminate.
Qed.

Lemma on_message_none s :
  exists s', on_message None s = (s', Ok (Some false)).
Proof. eexists. reflexivity. Qed.

(** What [on_message] does, by the class of the message. *)
Lemma on_message_class m s :
  classify m <> EmptyLine ->
  match classify m with
  | EmptyLine => True
  | ProbeLine | PreambleLine => on_message (Some m) s = (s, Ok None)
  | LoopLine => on_message (Some m) s = (s, Ok (Some true))
  | ErrorLine | SyncErrorLine | EndLine =>
      exists s', on_message (Some m) s = (s', Ok (Some false))
  | DataLine =>
      on_message (Some m) s = ((_forward_update_message m s).1, Ok None)
  end.
Proof.
  unfold classify, on_message.
  destruct (String.eqb (PyStr.strip m) ""); [congruence|]. intros _.
  destruct (String.eqb m PROBE_CMD); [reflexivity|].
  destruct (PyStr.startswith m ERROR_CMD); [eexists; reflexivity|].
  destruct (PyStr.startswith m LOOP_CMD); [reflexivity|].
  destruct (PyStr.startswith m SYNC_ERROR_CMD); [eexists; reflexivity|].
  destruct (PyStr.startswith m END_CMD); [eexists; reflexivity|].
  destruct (PyStr.startswith m "Preamble"); [reflexivity|].
  unfold and_then.
  destruct (_forward_update_message_returns m s) as [[] Ha].
  destruct (_forward_update_message m s) as [s' r]. simpl in *. now subst r.
Qed.

Lemma classify_empty m :
  classify m = EmptyLine <-> String.eqb (PyStr.strip m) "" = true.
Proof.
  unfold classify. destruct (String.eqb (PyStr.strip m) ""); [done|].
  split; [|discriminate].
  repeat match goal with
         | |- context [if ?b then _ else _] => destruct b
         end; discriminate.
Qed.

(** One round of the loop on a client whose next line is [raw]. *)
Lemma receive_round_line s raw rest :
  _stream_connection s = Some (Line raw :: rest) ->
  receive_round s =
    on_message
      (if String.eqb (PyStr.strip (PyStr.rstrip raw)) "" then None
       else Some (PyStr.rstrip raw))
      (advance rest s).
Proof.
  intros H. unfold receive_round, and_then.
  now rewrite (read_message_line s raw rest H).
Qed.

Lemma on_message_keeps_connection message s :
  _stream_connection (on_message message s).1 = _stream_connection s.
Proof.
  apply (on_message_preserves
           (fun st => _stream_connection st = _stream_connection s));
    auto.
Qed.

Lemma receive_round_decreases s s' :
  receive_round s = (s', Ok None) ->
  (pending_lines s' < pending_lines s)%nat.
Proof.
  unfold receive_round, and_then.
  destruct (read_message s) as [s1 [[m|]|e]] eqn:Hr; [| |discriminate].
  - apply read_message_some in Hr as (raw & rest & Hc & -> & _).
    intros Hm. unfold pending_lines.
    replace s' with (on_message (Some m) (advance rest s)).1
      by now rewrite Hm.
    rewrite on_message_keeps_connection, Hc. simpl. lia.
  - destruct (on_message_none s1) as [s2 ->]. discriminate.
Qed.

Lemma receive_loop_unfold s :
  receive_loop s =
    match receive_round s with
    | (s', Ok (Some rebind)) => (s', Ok rebind)
    | (s', Ok None) => receive_loop s'
    | (s', Raise e) => (s', Raise e)
    end.
Proof. apply run_loop_unfold, receive_round_decreases. Qed.

(** The loop of [_receive] ends, with a value of [rebind], on every
    client. *)
Lemma receive_loop_returns : never_raises receive_loop.
Proof.
  intros s. remember (pending_lines s) as n eqn:Hn.
  revert s Hn. induction n as [n IH] using lt_wf_ind. intros s ->.
  rewrite receive_loop_unfold.
  destruct (receive_round_returns s) as [a Ha].
  destruct (receive_round s) as [s' r] eqn:Hr. simpl in Ha. subst r.
  destruct a as [rebind|]; [now exists rebind|].
  apply receive_round_decreases in Hr.
  now apply (IH (pending_lines s')).
Qed.


Lemma and_then_post {S A B} (I : S -> Prop) (m : M S A) (k : A -> M S B) s :
  I (m s).1 -> (forall a, preserves I (k a)) -> I (and_then m k s).1.
Proof.
  intros Hm Hk. unfold and_then.
  destruct (m s) as [s' [a|e]]; simpl in *; [now apply Hk | exact Hm].
Qed.

(** A goal [preserves I m] for a method [m] and an [I] that reads a field
    the method does not assign. *)
Ltac frame_leaf :=
  first
    [ apply preserves_modify; intros ? ?; simpl; assumption
    | apply log_preserves; intros; assumption
    | apply print_traceback_preserves; intros; assumption
    | apply _call_preserves; intros; assumption
    | apply _control_preserves; intros; assumption
    | apply read_preserves; intros; assumption
    | apply _handle_stream_preserves; intros; assumption
    | apply connect_preserves; intros; assumption
    | apply bind_preserves; intros; assumption
    | apply _forward_update_message_preserves; intros; assumption
    | apply unsubscribe_preserves; intros; assumption
    | apply unsubscribe_all_preserves; intros; assumption
    | apply receive_loop_preserves; intros; assumption ].

Ltac frame := repeat frame_step; try frame_leaf.




(** ** The session across a handshake *)

Lemma session_round_decreases s s' :
  session_round s = (s', Ok None) ->
  (pending_lines s' < pending_lines s)%nat.
Proof.
  unfold session_round, _read_from_stream.
  unfold and_then at 1. unfold and_then at 1. unfold gets at 1.
  cbv beta iota. unfold pending_lines.
  destruct (_stream_connection s) as [[|[t|e] rest]|] eqn:Hc; simpl;
    try discriminate.
  destruct (String.eqb (PyStr.rstrip t) ""); simpl; [discriminate|].
  destruct (PyStr.split1 ":" (PyStr.rstrip t)) as [|k [|v [|? ?]]]; simpl;
    try discriminate.
  intros [= <-]. simpl. lia.
Qed.

(** The loop of [_handle_stream] that parses the session is that loop: one
    round, then the next, until the empty line or an exception. *)
Lemma session_loop_unfold s :
  run_loop pending_lines session_round s =
    match session_round s with
    | (s', Ok (Some tt)) => (s', Ok tt)
    | (s', Ok None) => run_loop pending_lines session_round s'
    | (s', Raise e) => (s', Raise e)
    end.
Proof.
  rewrite (run_loop_unfold pending_lines session_round
             session_round_decreases s).
  now destruct (session_round s) as [s' [[[]|]|e]].
Qed.




Lemma _call_run base path params s :
  _call base path params s =
    match network s with
    | [] =>
        (requested base path params s, Raise (OtherError "urlopen: no answer"))
    | CallFail e :: rest =>
        (set_network rest (requested base path params s), Raise e)
    | Response evs :: rest =>
        (set_network rest (requested base path params s), Ok evs)
    end.
Proof.
  unfold _call.
  unfold and_then at 1. unfold and_then at 1. unfold and_then at 1.
  unfold modify at 1. unfold gets. cbv beta iota. cbn [network set_requests].
  destruct (network s) as [|[evs|e] rest]; reflexivity.
Qed.


(** ** C5: a LOOP line *)


(** ** C3: the end of a stream task that does not rebind *)

(** C3, as stated, fails: a client that connected and rebound once has a bind
    counter of one and a control link; when its stream then ends with [END],
    [_receive] leaves the bind counter at one and the control link in
    place. *)
Lemma bind_count_survives_end :
  let c := exec_all [Connect; RunThread 0%nat]
             (demo_client [accepted ["LOOP"]; accepted ["END"]]) in
  _stream_connection c = Some [Line "END"]
  /\ classify "END" = EndLine
  /\ (receive_loop c).2 = Ok false
  /\ _session (_receive c).1 = ∅
  /\ _bind_counter (_receive c).1 = 1
  /\ _bind_counter (_receive c).1 <> 0
  /\ _control_url (_receive c).1
     = Some {| scheme := "https"; address := "ctl.example.com" |}.
Proof. vm_compute. repeat split; try reflexivity. discriminate. Qed.

(** C3, amended.  When the loop of [_receive] ends without a rebind, the task
    drops the stream connection, empties the session (so the session id and
    the control address it held are gone), empties the subscriptions and
    sets the key counter to zero; the bind counter and the control link in
    use keep their values.  The loop ends that way on a line that is empty,
    or starts with [ERROR], [SYNC ERROR] or [END], and when no line can be
    read. *)
Theorem terminal_run_clears_session_data (self : LightStreamerClient) :
  (forall s1, receive_loop self = (s1, Ok false) ->
     let after := (_receive self).1 in
     (_receive self).2 = Ok tt
     /\ _stream_connection after = None
     /\ _session after = ∅
     /\ _subscriptions after = ∅
     /\ _current_subscription_key after = 0
     /\ _bind_counter after = _bind_counter self
     /\ _control_url after = _control_url self)
  /\ (forall raw rest,
        _stream_connection self = Some (Line raw :: rest) ->
        ends_session (classify (PyStr.rstrip raw)) = true ->
        exists s1, receive_loop self = (s1, Ok false))
  /\ ((forall raw rest, _stream_connection self <> Some (Line raw :: rest)) ->
      exists s1, receive_loop self = (s1, Ok false)).
Proof.
  split; [|split].
  - intros s1 Hrun after.
    assert (Hb : _bind_counter s1 = _bind_counter self).
    { replace s1 with (receive_loop self).1 by now rewrite Hrun.
      apply (receive_loop_preserves
               (fun st => _bind_counter st = _bind_counter self)); auto. }
    assert (Hu : _control_url s1 = _control_url self).
    { replace s1 with (receive_loop self).1 by now rewrite Hrun.
      apply (receive_loop_preserves
               (fun st => _control_url st = _control_url self)); auto. }
    subst after. unfold _receive, and_then. rewrite Hrun. simpl.
    repeat split; assumption.
  - intros raw rest Hconn Hend.
    rewrite receive_loop_unfold, (receive_round_line self raw rest Hconn).
    destruct (String.eqb (PyStr.strip (PyStr.rstrip raw)) "") eqn:He.
    + destruct (on_message_none (advance rest self)) as [s1 ->].
      now exists s1.
    + assert (Hne : classify (PyStr.rstrip raw) <> EmptyLine).
      { intros Hc. apply classify_empty in Hc. congruence. }
      pose proof (on_message_class (PyStr.rstrip raw) (advance rest self) Hne)
        as Hon.
      destruct (classify (PyStr.rstrip raw)); try discriminate Hend;
        try contradiction; destruct Hon as [s1 ->]; now exists s1.
  - intros Hno. rewrite receive_loop_unfold. unfold receive_round, and_then.
    destruct (read_message_no_line self Hno) as [s1 ->].
    destruct (on_message_none s1) as [s2 ->]. now exists s2.
Qed.

Lemma terminal_run_clears_session_data_witness :
  let c := exec_all [Connect; RunThread 0%nat]
             (demo_client [accepted ["LOOP"]; accepted ["END"]]) in
  _subscriptions (_receive c).1 = ∅
  /\ _current_subscription_key (_receive c).1 = 0
  /\ _bind_counter (_receive c).1 = _bind_counter c.
Proof.
  intros c.
  destruct (terminal_run_clears_session_data c) as (Hclear & Hline & _).
  assert (Hconn : _stream_connection c = Some [Line "END"])
    by (vm_compute; reflexivity).
  assert (Hend : ends_session (classify (PyStr.rstrip "END")) = true)
    by (vm_compute; reflexivity).
  destruct (Hline "END" [] Hconn Hend) as [s1 Hrun].
  destruct (Hclear s1 Hrun) as (_ & _ & _ & Hsubs & Hkey & Hbind & _).
  split; [exact Hsubs|]. split; [exact Hkey | exact Hbind].
Defined.

(** ** C8: a data line never stops the loop *)

(** What the [try] block of [_forward_update_message] meets: a table key
  that [int] refuses, a message without a comma, an item line whose
  position [int] refuses or that names no item, a listener that raises;
  a table key that is not registered is logged and raises nothing. *)
Example forward_examples :
  (forward_body "x,1|A|B" pushed).2 = Raise ValueError
  /\ (forward_body "1" pushed).2 = Raise IndexError
  /\ (forward_body "2,x|A|B" pushed).2 = Raise ValueError
  /\ (forward_body "2,9|A|B" pushed).2 = Raise IndexError
  /\ (forward_body "1,1|A|B" pushed).2 = Raise (OtherError "listener")
  /\ (forward_body "7,1|A|B" pushed).2 = Ok tt
  /\ output (forward_body "7,1|A|B" pushed).1
     = (output pushed ++ [Log WARNING "No subscription found!" []])%list
  /\ (forward_body "2,1|A|B" pushed).2 = Ok tt
  /\ (_forward_update_message "1,1|A|B" pushed).2 = Ok tt
  /\ output (_forward_update_message "1,1|A|B" pushed).1
     = (output pushed ++ [Traceback (OtherError "listener")])%list.
Proof. vm_compute. repeat split; reflexivity. Qed.

(** C8.  On a line that the chain of tests takes for data,
    [_forward_update_message] returns whatever the line and the client are:
    an exception of its [try] block, from the parsing of the line or from
    the dispatch to the subscription, is printed and goes no further.  The
    round hands the loop on to the next line. *)
Theorem data_line_never_stops_loop (self : LightStreamerClient)
  (raw : string) (rest : list read_event) :
  _stream_connection self = Some (Line raw :: rest) ->
  classify (PyStr.rstrip raw) = DataLine ->
  let message := PyStr.rstrip raw in
  let forwarded := _forward_update_message message (advance rest self) in
  forwarded.2 = Ok tt
  /\ (forall s' e,
        forward_body message (advance rest self) = (s', Raise e) ->
        forwarded.1 = set_output (output s' ++ [Traceback e]) s')
  /\ receive_round self = (forwarded.1, Ok None)
  /\ _stream_connection forwarded.1 = Some rest
  /\ receive_loop self = receive_loop forwarded.1.
Proof.
  intros Hconn Hclass message forwarded.
  assert (Hround : receive_round self = (forwarded.1, Ok None)).
  { rewrite (receive_round_line self raw rest Hconn).
    assert (Hne : classify (PyStr.rstrip raw) <> EmptyLine) by congruence.
    pose proof (on_message_class (PyStr.rstrip raw) (advance rest self) Hne)
      as Hon.
    rewrite Hclass in Hon.
    destruct (String.eqb (PyStr.strip (PyStr.rstrip raw)) "") eqn:He;
      [|exact Hon].
    apply classify_empty in He. congruence. }
  repeat split.
  - destruct (_forward_update_message_returns message (advance rest self))
      as [[] Ha]. exact Ha.
  - intros s' e Hbody. subst forwarded.
    unfold _forward_update_message, try_except. now rewrite Hbody.
  - exact Hround.
  - subst forwarded.
    apply (_forward_update_message_preserves
             (fun st => _stream_connection st = Some rest)); auto.
  - rewrite receive_loop_unfold at 1. now rewrite Hround.
Qed.

Lemma data_line_never_stops_loop_witness :
  let c := exec_all [Connect; Subscribe failing]
             (demo_client [accepted ["1,1|A|B"; "x,1|A|B"; "END"];
                           ok_answer]) in
  (forward_body "1,1|A|B" (advance [Line "x,1|A|B"; Line "END"] c)).2
    = Raise (OtherError "listener")
  /\ receive_loop c
     = receive_loop
         (_forward_update_message "1,1|A|B"
            (advance [Line "x,1|A|B"; Line "END"] c)).1.
Proof.
  intros c. split; [vm_compute; reflexivity|].
  apply (data_line_never_stops_loop c "1,1|A|B" [Line "x,1|A|B"; Line "END"]);
    vm_compute; reflexivity.
Defined.

(** ** The control requests *)

(** [_control] on a client that has a session id and a control link. *)
Lemma _control_run s sid cu params :
  _session s !! "SessionId" = Some sid ->
  _control_url s = Some cu ->
  _control params s =
    match network s with
    | [] => (sent cu params sid s, Raise (OtherError "urlopen: no answer"))
    | CallFail e :: rest => (set_network rest (sent cu params sid s), Raise e)
    | Response evs :: rest =>
        first_line evs (set_network rest (sent cu params sid s))
    end.
Proof.
  intros Hsid Hcu. unfold _control.
  erewrite and_then_ok by reflexivity. rewrite Hsid.
  erewrite and_then_ok by reflexivity.
  erewrite and_then_ok by reflexivity. rewrite Hcu.
  erewrite and_then_ok by reflexivity.
  unfold _call.
  unfold and_then at 1. unfold and_then at 1. unfold and_then at 1.
  unfold modify at 1. unfold gets. cbv beta iota. cbn [network set_requests].
  destruct (network s) as [|[evs|e] rest]; reflexivity.
Qed.


(** ** C7: unsubscribe *)



(** ** The key counter *)

Section Keys.
Variable I : LightStreamerClient -> Prop.
Hypothesis I_output : forall v s, I s -> I (set_output v s).
Hypothesis I_requests : forall v s, I s -> I (set_requests v s).
Hypothesis I_network : forall v s, I s -> I (set_network v s).
Hypothesis I_subscription_update :
    forall k v s,
      is_Some (_subscriptions s !! k) -> I s ->
      I (set_subscriptions (<[k := v]> (_subscriptions s)) s).
Hypothesis I_subscription_delete :
    forall k s, I s -> I (set_subscriptions (delete k (_subscriptions s)) s).
Hypothesis I_stream_connection :
    forall v s, I s -> I (set_stream_connection v s).
Hypothesis I_bind_counter : forall v s, I s -> I (set_bind_counter v s).
Hypothesis I_control_url : forall v s, I s -> I (set_control_url v s).
Hypothesis I_threads : forall v s, I s -> I (set_threads v s).
Hypothesis I_thread :
    forall v s, I s -> I (set_stream_connection_thread v s).
Hypothesis I_session_entry :
    forall k v s, I s -> I (set_session (<[k := v]> (_session s)) s).
Hypothesis I_clear : preserves I clear_session_data.

Lemma _receive_preserves : preserves I _receive.
Proof.
  unfold _receive. repeat frame_step.
  - apply receive_loop_preserves; auto.
  - exact I_clear.
  - apply bind_preserves; auto.
Qed.

Lemma run_thread_preserves i : preserves I (run_thread i).
Proof.
  unfold run_thread. repeat frame_step;
    try (apply preserves_modify; intros st Hst; now apply I_threads).
  - apply _receive_preserves.
  - now apply print_traceback_preserves.
Qed.

Lemma _join_preserves : preserves I _join.
Proof.
  unfold _join. repeat frame_step.
  - apply run_thread_preserves.
  - apply preserves_modify; intros st Hst; now apply I_thread.
Qed.

Lemma disconnect_preserves : preserves I disconnect.
Proof.
  unfold disconnect. repeat frame_step.
  - now apply _control_preserves.
  - apply _join_preserves.
  - now apply log_preserves.
  - now apply log_preserves.
Qed.
End Keys.

Lemma clear_well_keyed : preserves well_keyed clear_session_data.
Proof.
  intros s _. split; simpl; [lia|].
  intros k [x Hx]. now rewrite lookup_empty in Hx.
Qed.


Lemma subscribe_run sub s :
  subscribe sub s =
    (let* server_response :=
       _control (add_request sub (_current_subscription_key s + 1)) in
     (if String.eqb server_response OK_CMD
      then log INFO "Successfully subscribed " []
      else log WARNING "Subscription error" []) >>
     gets _current_subscription_key) (registered sub s).
Proof.
  unfold subscribe.
  erewrite and_then_ok by reflexivity.
  erewrite and_then_ok by reflexivity.
  reflexivity.
Qed.

Lemma subscribe_preserves (I : LightStreamerClient -> Prop) sub s :
  (forall v st, I st -> I (set_output v st)) ->
  (forall v st, I st -> I (set_requests v st)) ->
  (forall v st, I st -> I (set_network v st)) ->
  I (registered sub s) -> I (subscribe sub s).1.
Proof.
  intros Ho Hr Hn H. rewrite subscribe_run.
  revert H. apply preserves_at. repeat frame_step.
  - now apply _control_preserves.
  - now apply log_preserves.
  - now apply log_preserves.
Qed.

Lemma subscribe_key sub s :
  _current_subscription_key (subscribe sub s).1
  = _current_subscription_key s + 1.
Proof.
  apply (subscribe_preserves
           (fun st => _current_subscription_key st
                      = _current_subscription_key s + 1)); auto.
Qed.

Lemma subscribe_registers sub s :
  _subscriptions (subscribe sub s).1
  = <[_current_subscription_key s + 1 := sub]> (_subscriptions s).
Proof.
  apply (subscribe_preserves
           (fun st => _subscriptions st
                      = <[_current_subscription_key s + 1 := sub]>
                          (_subscriptions s))); auto.
Qed.

Lemma subscribe_returns_key sub s k :
  (subscribe sub s).2 = Ok k -> k = _current_subscription_key s + 1.
Proof.
  rewrite subscribe_run. unfold and_then.
  destruct (_control _ (registered sub s)) as [s1 [resp|e]] eqn:Hc;
    [|discriminate].
  assert (Hk : _current_subscription_key s1
               = _current_subscription_key s + 1).
  { replace s1
      with (_control (add_request sub (_current_subscription_key s + 1))
              (registered sub s)).1 by now rewrite Hc.
    apply (preserves_at
             (fun st => _current_subscription_key st
                        = _current_subscription_key s + 1));
      [|reflexivity].
    now apply _control_preserves. }
  destruct (String.eqb resp OK_CMD); simpl; intros [= <-]; exact Hk.
Qed.

Lemma subscribe_well_keyed sub : preserves well_keyed (subscribe sub).
Proof.
  intros s [Hk Hsubs]. split.
  - rewrite subscribe_key. lia.
  - intros k. rewrite subscribe_registers, subscribe_key.
    destruct (decide (_current_subscription_key s + 1 = k)) as [<-|Hne].
    + intros _. lia.
    + rewrite lookup_insert_ne by assumption. intros H. apply Hsubs in H.
      lia.
Qed.


Lemma well_keyed_update k v s :
  is_Some (_subscriptions s !! k) -> well_keyed s ->
  well_keyed (set_subscriptions (<[k := v]> (_subscriptions s)) s).
Proof.
  intros Hk [H0 Hsubs]. split; [exact H0|]. simpl. intros k'.
  destruct (decide (k = k')) as [<-|Hne].
  - intros _. now apply Hsubs.
  - rewrite lookup_insert_ne by assumption. apply Hsubs.
Qed.

Lemma well_keyed_delete k s :
  well_keyed s ->
  well_keyed (set_subscriptions (delete k (_subscriptions s)) s).
Proof.
  intros [H0 Hsubs]. split; [exact H0|]. simpl. intros k' [x Hx].
  apply Hsubs. apply lookup_delete_Some in Hx as [_ Hx]. eauto.
Qed.

Ltac keyed_frame :=
  first [ exact well_keyed_update | exact well_keyed_delete
        | exact clear_well_keyed | intros; assumption ].

Lemma exec_well_keyed o s : well_keyed s -> well_keyed (exec o s).
Proof.
  destruct o; simpl.
  - apply connect_preserves; keyed_frame.
  - apply bind_preserves; keyed_frame.
  - apply disconnect_preserves; keyed_frame.
  - apply subscribe_well_keyed.
  - apply unsubscribe_preserves; keyed_frame.
  - apply unsubscribe_all_preserves; keyed_frame.
  - apply run_thread_preserves; keyed_frame.
Qed.

Lemma exec_all_well_keyed ops : forall s,
  well_keyed s -> well_keyed (exec_all ops s).
Proof.
  induction ops as [|o ops IH]; intros s H; [exact H|].
  apply IH. now apply exec_well_keyed.
Qed.

Lemma clear_kept_or_reset n : preserves (kept_or_reset n) clear_session_data.
Proof. intros s _. now right. Qed.

Lemma exec_kept_or_reset o s n :
  (forall sub, o <> Subscribe sub) ->
  kept_or_reset n s -> kept_or_reset n (exec o s).
Proof.
  intros Ho. destruct o; simpl.
  - apply connect_preserves; intros; assumption.
  - apply bind_preserves; intros; assumption.
  - apply disconnect_preserves;
      first [exact (clear_kept_or_reset n) | intros; assumption].
  - now contradiction (Ho subscription).
  - apply unsubscribe_preserves; intros; assumption.
  - apply unsubscribe_all_preserves; intros; assumption.
  - apply run_thread_preserves;
      first [exact (clear_kept_or_reset n) | intros; assumption].
Qed.

Lemma exec_key_not_lowered o s :
  (forall i, o <> RunThread i) -> o <> Disconnect ->
  _current_subscription_key s <= _current_subscription_key (exec o s).
Proof.
  intros Ht Hd.
  assert (Hkeep : forall (m : M LightStreamerClient unit),
            preserves (fun st => _current_subscription_key st
                                 = _current_subscription_key s) m ->
            _current_subscription_key s
            <= _current_subscription_key (m s).1).
  { intros m Hm. rewrite (Hm s eq_refl). lia. }
  destruct o; simpl.
  - apply Hkeep, connect_preserves; intros; assumption.
  - apply Hkeep, bind_preserves; intros; assumption.
  - contradiction.
  - rewrite subscribe_key. lia.
  - apply Hkeep, unsubscribe_preserves; intros; assumption.
  - apply Hkeep, unsubscribe_all_preserves; intros; assumption.
  - now contradiction (Ht i).
Qed.

Lemma assigned_keys_count_up ops : forall s n,
  kept_or_reset n s -> counts_up n (assigned_keys ops s).
Proof.
  induction ops as [|o ops IH]; intros s n Hn; [exact I|].
  assert (Hother : (forall sub, o <> Subscribe sub) ->
                   counts_up n (assigned_keys ops (exec o s))).
  { intros Ho. now apply IH, exec_kept_or_reset. }
  destruct o; try (apply Hother; discriminate).
  simpl. split.
  - rewrite subscribe_key. destruct Hn as [-> | ->]; [now left | now right].
  - apply IH. now left.
Qed.

Lemma counts_up_positive keys : forall n,
  0 <= n -> counts_up n keys -> Forall (fun k => 1 <= k) keys.
Proof.
  induction keys as [|k keys IH]; intros n Hn Hc; [constructor|].
  destruct Hc as [Hk Hrest].
  assert (1 <= k) by (destruct Hk; lia).
  constructor; [assumption|]. apply (IH k); [lia | exact Hrest].
Qed.

Lemma _control_returns params s sid cu :
  _session s !! "SessionId" = Some sid ->
  _control_url s = Some cu ->
  is_Some (control_answer s) ->
  exists resp, (_control params s).2 = Ok resp.
Proof.
  intros Hsid Hcu [a Ha]. rewrite (_control_run s sid cu params Hsid Hcu).
  unfold control_answer in Ha.
  destruct (network s) as [|[[|[t|e] evs]|e] rest]; try discriminate;
    eexists; reflexivity.
Qed.

Lemma subscribe_returns sub s sid cu :
  _session s !! "SessionId" = Some sid ->
  _control_url s = Some cu ->
  is_Some (control_answer s) ->
  (subscribe sub s).2 = Ok (_current_subscription_key s + 1).
Proof.
  intros Hsid Hcu Ha.
  destruct (_control_returns
              (add_request sub (_current_subscription_key s + 1))
              (registered sub s) sid cu Hsid Hcu Ha) as [resp Hresp].
  destruct (subscribe sub s) as [s' [k|e]] eqn:Hs.
  - simpl. f_equal. apply (subscribe_returns_key sub s). now rewrite Hs.
  - exfalso. rewrite subscribe_run in Hs. unfold and_then in Hs.
    destruct (_control _ (registered sub s)) as [s1 [r|e1]];
      [|discriminate Hresp].
    destruct (String.eqb r OK_CMD); discriminate Hs.
Qed.

(** ** C4: the keys assigned by subscribe *)

(** C4, as stated, fails: a client subscribes and gets the key 1, its stream
    ends with [END], it connects again and subscribes: the key is 1
    again. *)
Lemma key_reused_after_end :
  let c0 := demo_client [accepted ["END"]; ok_answer; accepted []; ok_answer] in
  let ops1 := [Connect] in
  let ops2 := [Connect; Subscribe two_fields; RunThread 0%nat; Connect] in
  (subscribe two_fields (exec_all ops1 c0)).2 = Ok 1
  /\ (subscribe watched (exec_all ops2 c0)).2 = Ok 1
  /\ assigned_keys (ops2 ++ [Subscribe watched]) c0 = [1; 1].
Proof. vm_compute. repeat split; reflexivity. Qed.

(** C4, amended.  On a client just created, whatever the operations: each
    key assigned by [subscribe] is one more than the key assigned before it,
    or is 1, and the first is 1; the keys are positive; every registered key
    lies between one and the key counter, so the next key is not a
    registered one.  The key counter is lowered only by the run of a stream
    task, on its own or awaited by [disconnect] (which sets it to zero when
    it ends without a rebind).  [subscribe] registers the subscription under
    the counter plus one and returns that key when it returns.  On a
    connected client whose counter is zero, three calls of [subscribe] that
    the server answers return 1, 2 and 3. *)
Theorem subscription_keys_count_up
  (ls_username ls_token : string) (ls_url : url) (adapter_set : string)
  (net : list call_result) (ops : list operation) :
  let fresh := new_client ls_username ls_token ls_url adapter_set net in
  let keys := assigned_keys ops fresh in
  counts_up 0 keys
  /\ Forall (fun k => 1 <= k) keys
  /\ well_keyed (exec_all ops fresh)
  /\ (forall c o,
        (forall i, o <> RunThread i) -> o <> Disconnect ->
        _current_subscription_key c <= _current_subscription_key (exec o c))
  /\ (forall c sub,
        _current_subscription_key (subscribe sub c).1
        = _current_subscription_key c + 1
        /\ _subscriptions (subscribe sub c).1
           !! (_current_subscription_key c + 1) = Some sub
        /\ forall k, (subscribe sub c).2 = Ok k ->
                     k = _current_subscription_key c + 1)
  /\ (forall c sub1 sub2 sub3 sid cu,
        _current_subscription_key c = 0 ->
        _session c !! "SessionId" = Some sid ->
        _control_url c = Some cu ->
        let c1 := (subscribe sub1 c).1 in
        let c2 := (subscribe sub2 c1).1 in
        is_Some (control_answer c) ->
        is_Some (control_answer c1) ->
        is_Some (control_answer c2) ->
        (subscribe sub1 c).2 = Ok 1
        /\ (subscribe sub2 c1).2 = Ok 2
        /\ (subscribe sub3 c2).2 = Ok 3).
Proof.
  intros fresh keys.
  assert (Hup : counts_up 0 keys).
  { apply assigned_keys_count_up. now left. }
  split; [exact Hup|].
  split; [now apply (counts_up_positive keys 0)|].
  split.
  { apply exec_all_well_keyed. split; simpl; [lia|].
    intros k [x Hx]. now rewrite lookup_empty in Hx. }
  split; [intros c o; apply exec_key_not_lowered|].
  split.
  { intros c sub. split; [apply subscribe_key|]. split.
    - rewrite subscribe_registers. apply lookup_insert_eq.
    - apply subscribe_returns_key. }
  intros c sub1 sub2 sub3 sid cu Hkey Hsid Hcu c1 c2 Ha Ha1 Ha2.
  assert (Hframe : forall sub st,
            _session st !! "SessionId" = Some sid
            /\ _control_url st = Some cu ->
            _session (subscribe sub st).1 !! "SessionId" = Some sid
            /\ _control_url (subscribe sub st).1 = Some cu).
  { intros sub st H.
    apply (subscribe_preserves
             (fun st' => _session st' !! "SessionId" = Some sid
                         /\ _control_url st' = Some cu)); auto. }
  destruct (Hframe sub1 c (conj Hsid Hcu)) as [Hsid1 Hcu1].
  fold c1 in Hsid1, Hcu1.
  destruct (Hframe sub2 c1 (conj Hsid1 Hcu1)) as [Hsid2 Hcu2].
  fold c2 in Hsid2, Hcu2.
  assert (Hk1 : _current_subscription_key c1 = 1).
  { subst c1. rewrite subscribe_key. lia. }
  assert (Hk2 : _current_subscription_key c2 = 2).
  { subst c2. rewrite subscribe_key. lia. }
  rewrite (subscribe_returns sub1 c sid cu Hsid Hcu Ha).
  rewrite (subscribe_returns sub2 c1 sid cu Hsid1 Hcu1 Ha1).
  rewrite (subscribe_returns sub3 c2 sid cu Hsid2 Hcu2 Ha2).
  rewrite Hkey, Hk1, Hk2. repeat split.
Qed.

Lemma subscription_keys_count_up_witness :
  let c := exec_all [Connect]
             (demo_client [accepted []; ok_answer; ok_answer; ok_answer]) in
  let c1 := (subscribe two_fields c).1 in
  let c2 := (subscribe watched c1).1 in
  (subscribe two_fields c).2 = Ok 1
  /\ (subscribe watched c1).2 = Ok 2
  /\ (subscribe failing c2).2 = Ok 3.
Proof.
  intros c c1 c2.
  destruct (subscription_keys_count_up "user" "token" demo_url "DEMO" [] [])
    as (_ & _ & _ & _ & _ & Hthree).
  apply (Hthree c two_fields watched failing "S1"
           {| scheme := "https"; address := "ctl.example.com" |}).
  - vm_compute. reflexivity.
  - vm_compute. reflexivity.
  - vm_compute. reflexivity.
  - vm_compute. eexists. reflexivity.
  - vm_compute. eexists. reflexivity.
  - vm_compute. eexists. reflexivity.
Defined.

(** ** C9: a refused handshake *)

Lemma all_lines_text (texts : list string) :
  all_lines (Line <$> texts) = (AsBytes <$> texts, [], None).
Proof.
  induction texts as [|t texts IH]; [reflexivity|].
  simpl. change (list_fmap string read_event Line texts)
    with (Line <$> texts).
  now rewrite IH.
Qed.

Lemma _handle_stream_refuses stream_line :
  String.eqb stream_line OK_CMD = false ->
  _handle_stream stream_line = refuse stream_line.
Proof. intros H. unfold _handle_stream. now rewrite H. Qed.

Lemma refuse_raises stream_line s :
  exists e, (refuse stream_line s).2 = Raise e.
Proof.
  unfold refuse, and_then.
  destruct (readlines s) as [s1 [ls|e]]; [|eauto].
  destruct (or_raise TypeError (str_join NL (AsStr stream_line :: ls)) s1)
    as [s2 [text|e]]; [|eauto].
  simpl. eauto.
Qed.

Lemma refuse_starts_no_thread stream_line s :
  threads (refuse stream_line s).1 = threads s
  /\ _stream_connection_thread (refuse stream_line s).1
     = _stream_connection_thread s.
Proof.
  apply (preserves_at
           (fun st => threads st = threads s
                      /\ _stream_connection_thread st
                         = _stream_connection_thread s));
    [|split; reflexivity].
  unfold refuse. repeat frame_step.
  - apply readlines_preserves; intros; assumption.
  - apply log_preserves; intros; assumption.
Qed.

Lemma refuse_with_more_lines stream_line s t ts :
  _stream_connection s = Some (Line <$> (t :: ts)) ->
  refuse stream_line s
  = (set_stream_connection (Some []) s, Raise TypeError).
Proof.
  intros Hc. unfold refuse, readlines.
  unfold and_then at 1. unfold and_then at 1. unfold gets. cbv beta iota.
  rewrite Hc, all_lines_text. reflexivity.
Qed.

Lemma refuse_alone stream_line s :
  _stream_connection s = Some [] ->
  refuse stream_line s =
    (set_output
       (output s ++
          [Log ERROR ("Server response error: " ++ NL ++ "%s")
             [PStr stream_line]])
       (set_stream_connection (Some []) s),
     Raise IOError).
Proof.
  intros Hc. unfold refuse, readlines.
  unfold and_then at 1. unfold and_then at 1. unfold gets. cbv beta iota.
  rewrite Hc. reflexivity.
Qed.

(** C9.  The code misses the claim on a refused handshake that has more
    lines: on the answer [ERROR], [1], [User/password check failed],
    [connect] raises [TypeError], from the join of the first line, a [str],
    with the other lines, which [readlines] gives as [bytes]; nothing is
    logged.  No thread is started. *)
Lemma refused_handshake_raises_type_error :
  let c := demo_client
             [Response
                [Line "ERROR"; Line "1"; Line "User/password check failed"]]
  in
  (connect c).2 = Raise TypeError
  /\ output (connect c).1 = []
  /\ threads (connect c).1 = []
  /\ _stream_connection_thread (connect c).1 = None.
Proof. vm_compute. repeat split; reflexivity. Qed.

(** ** Instances of the theorems above *)


Lemma merge_two_updates_witness :
  _items_map (notify_update "1||B" (notify_update "1|A|" two_fields).1).1
    !! 1
  = Some (dict [("f1", Some "A"); ("f2", Some "B")]).
Proof.
  apply (merge_two_updates two_fields "f1" "f2");
    [reflexivity | reflexivity | discriminate].
Defined.

Lemma notify_update_position_unchecked_witness :
  (exists last_name,
     last (item_names watched) = Some last_name
     /\ Forall (fun c => pos c.2 = 0 /\ name c.2 = last_name)
          (new_calls watched (notify_update "0|A|B" watched).1)
     /\ (_listeners watched <> [] ->
         new_calls watched (notify_update "0|A|B" watched).1 <> [])
     /\ ((forall l e, l ∈ _listeners watched -> l e = None) ->
         (notify_update "0|A|B" watched).2 = Ok tt))
  /\ notify_update "3|A|B" watched = (watched, Raise IndexError).
Proof.
  destruct (notify_update_position_unchecked watched "0|A|B") as [Hzero _].
  destruct (notify_update_position_unchecked watched "3|A|B") as [_ Habove].
  split.
  - apply Hzero; [vm_compute; reflexivity | discriminate].
  - apply (Habove 3); vm_compute; reflexivity.
Defined.

(** * Further properties of the code *)

(** ** [notify_update]: the event and the listeners *)

Lemma dict_lookup_Some_elem `{Countable K} {V} (l : list (K * V)) k v :
  dict l !! k = Some v -> (k, v) ∈ l.
Proof.
  induction l as [|[k' v'] l IH] using rev_ind.
  - unfold dict. simpl. now rewrite lookup_empty.
  - rewrite dict_snoc. destruct (decide (k' = k)) as [->|Hne].
    + rewrite lookup_insert_eq. intros [= ->].
      apply elem_of_app. right. apply list_elem_of_here.
    + rewrite lookup_insert_ne by assumption. intros Hl.
      apply elem_of_app. left. now apply IH.
Qed.

Lemma dict_lookup_split `{Countable K} {V} (l1 l2 : list (K * V)) k v :
  k ∉ l2.*1 -> dict (l1 ++ (k, v) :: l2) !! k = Some v.
Proof.
  intros Hk.
  apply (dict_lookup_last _ (length l1)).
  - now rewrite lookup_app_r, Nat.sub_diag by lia.
  - intros j v' Hj Hl. apply Hk.
    rewrite lookup_app_r in Hl by lia.
    destruct (j - length l1)%nat as [|n] eqn:Hn; [lia|]. simpl in Hl.
    apply list_elem_of_fmap. exists (k, v'). split; [reflexivity|].
    apply list_elem_of_lookup. eauto.
Qed.

Lemma call_listeners_all ls : forall i e s,
  (forall l, l ∈ ls -> l e = None) ->
  call_listeners i ls e s = (add_calls (calls_from i (length ls) e) s, Ok tt).
Proof.
  induction ls as [|l ls IH]; intros i e s Hall.
  - simpl. unfold calls_from. simpl. now rewrite add_calls_nil.
  - simpl. unfold and_then, modify.
    rewrite (Hall l) by apply list_elem_of_here.
    rewrite IH by (intros l' Hl'; apply Hall; now apply list_elem_of_further).
    change (record_call i e s) with (add_calls [(i, e)] s).
    now rewrite add_calls_app.
Qed.

Lemma call_listeners_failure ls : forall i e s k l err,
  ls !! k = Some l -> l e = Some err ->
  (forall j l', (j < k)%nat -> ls !! j = Some l' -> l' e = None) ->
  call_listeners i ls e s
  = (add_calls (calls_from i (S k) e) s, Raise err).
Proof.
  induction ls as [|l0 ls IH]; intros i e s k l err Hk Hl Hbefore.
  - now rewrite lookup_nil in Hk.
  - simpl. unfold and_then, modify. destruct k as [|k].
    + injection Hk as ->. rewrite Hl. reflexivity.
    + rewrite (Hbefore 0%nat l0 ltac:(lia) eq_refl).
      rewrite (IH (S i) e _ k l err Hk Hl).
      * change (record_call i e s) with (add_calls [(i, e)] s).
        now rewrite add_calls_app.
      * intros j l' Hj Hl'. apply (Hbefore (S j) l'); [lia | exact Hl'].
Qed.

Lemma notify_update_new_values s line p nm :
  notify_new_values s = true ->
  line_position line = Some p ->
  py_index (item_names s) (p - 1) = Some nm ->
  notify_update line s =
    call_listeners 0 (_listeners s)
      {| pos := p; name := nm; values := new_values s line |} s.
Proof.
  intros Hmode Hpos Hname. unfold line_position, line_tokens in Hpos.
  unfold notify_update, and_then. rewrite Hpos. simpl.
  rewrite Hname. simpl. rewrite Hmode. reflexivity.
Qed.

Lemma add_calls_items_map cs s : _items_map (add_calls cs s) = _items_map s.
Proof. reflexivity. Qed.

(** X1.  In the mode that notifies new values only, [notify_update] leaves
    the cache of items as it is, and the values of the event it passes to
    the listeners hold nothing but tokens of the line: each value is a token
    that is not empty, under the field of its rank, and a field gets the last
    of its tokens that is not empty. *)
Theorem new_values_only_passes_tokens (s : LightStreamerSubscription)
  (line : string) (p : Z) :
  notify_new_values s = true ->
  line_position line = Some p ->
  is_Some (py_index (item_names s) (p - 1)) ->
  let tokens := tl (line_tokens line) in
  let s' := (notify_update line s).1 in
  _items_map s' = _items_map s
  /\ Forall (fun c => values c.2 = new_values s line) (new_calls s s')
  /\ (forall f x, new_values s line !! f = Some x ->
        exists i v, x = Some v /\ v <> ""
                    /\ field_names s !! i = Some f /\ tokens !! i = Some v)
  /\ (forall i f v,
        field_names s !! i = Some f -> tokens !! i = Some v -> v <> "" ->
        (forall j v', (i < j)%nat -> field_names s !! j = Some f ->
                      tokens !! j = Some v' -> v' = "") ->
        new_values s line !! f = Some (Some v)).
Proof.
  intros Hmode Hpos [nm Hname] tokens s'.
  assert (Hrun := notify_update_new_values s line p nm Hmode Hpos Hname).
  destruct (call_listeners_calls (_listeners s) 0
              {| pos := p; name := nm; values := new_values s line |} s)
    as (cs & Hst & Hall & _).
  rewrite <- Hrun in Hst. fold s' in Hst.
  split; [now rewrite Hst|]. split.
  { rewrite Hst, new_calls_add_calls by reflexivity.
    eapply Forall_impl; [exact Hall|]. now intros c ->. }
  unfold new_values. fold tokens. split.
  - intros f x Hx. rewrite lookup_fmap in Hx.
    destruct (dict _ !! f) as [v|] eqn:Hd; [|discriminate].
    injection Hx as <-.
    apply dict_lookup_Some_elem, list_elem_of_filter in Hd as [Hv Hin].
    apply list_elem_of_lookup in Hin as [i Hi].
    apply lookup_zip_with_Some in Hi as (f' & v' & [= <- <-] & Hf & Ht).
    exists i, v. repeat split; assumption.
  - intros i f v Hf Ht Hv Hlater. rewrite lookup_fmap.
    assert (Hi : zip (field_names s) tokens !! i = Some (f, v)).
    { apply lookup_zip_with_Some. eauto. }
    rewrite <- (take_drop_middle _ i (f, v) Hi), filter_app, filter_cons_True
      by exact Hv.
    rewrite dict_lookup_split; [reflexivity|].
    intros Hin. apply list_elem_of_fmap in Hin as ([f' v'] & Heq & Hin).
    simpl in Heq. subst f'.
    apply list_elem_of_filter in Hin as [Hv' Hin].
    apply list_elem_of_lookup in Hin as [j Hj].
    rewrite lookup_drop in Hj.
    apply lookup_zip_with_Some in Hj as (f' & v'' & [= <- <-] & Hf' & Ht').
    apply Hv'. simpl.
    apply (Hlater (S i + j)%nat v'); [lia | exact Hf' | exact Ht'].
Qed.

Lemma new_values_only_passes_tokens_witness :
  _items_map (notify_update "1|A|" fresh_only).1 = _items_map fresh_only
  /\ new_values fresh_only "1|A|" !! "f1" = Some (Some "A").
Proof.
  assert (Hpos : line_position "1|A|" = Some 1) by (vm_compute; reflexivity).
  assert (Hname : is_Some (py_index (item_names fresh_only) (1 - 1)))
    by (eexists; vm_compute; reflexivity).
  destruct (new_values_only_passes_tokens fresh_only "1|A|" 1 eq_refl Hpos
              Hname) as (Hcache & _ & _ & Hlast).
  split; [exact Hcache|].
  apply (Hlast 0%nat "f1" "A"); [reflexivity | reflexivity | discriminate|].
  intros [|[|[|j]]] v' Hj Hf Ht; try lia; discriminate.
Defined.

(** The subscription and the event at the point where [notify_update]
    starts calling the listeners. *)
Lemma notify_update_reaches_listeners s line p nm :
  line_position line = Some p ->
  py_index (item_names s) (p - 1) = Some nm ->
  exists vals s1,
    notified s1 = notified s /\ _listeners s1 = _listeners s
    /\ (notify_new_values s = false -> _items_map s1 !! p = Some vals)
    /\ notify_update line s =
         call_listeners 0 (_listeners s)
           {| pos := p; name := nm; values := vals |} s1.
Proof.
  intros Hpos Hname. destruct (notify_new_values s) eqn:Hmode.
  - exists (new_values s line), s.
    repeat split; try discriminate.
    now apply notify_update_new_values.
  - exists (merged s p line),
      (set_items_map (<[p := merged s p line]> (_items_map s)) s).
    repeat split.
    + intros _. simpl. apply lookup_insert_eq.
    + now apply notify_update_merge.
Qed.

(** X2.  On a line whose position names an item, [notify_update] calls the
    listeners in the order of their registration, each with the same event.
    When all of them return, each was called once and [notify_update]
    returns.  When one raises, [notify_update] raises the same exception, the
    listeners registered after it are not called, and in the mode that keeps
    a cache the values of the event are already stored. *)
Theorem listeners_called_in_order (s : LightStreamerSubscription)
  (line : string) (p : Z) (nm : string) :
  line_position line = Some p ->
  py_index (item_names s) (p - 1) = Some nm ->
  let s' := (notify_update line s).1 in
  exists e,
    pos e = p /\ name e = nm
    /\ ((forall l, l ∈ _listeners s -> l e = None) ->
        (notify_update line s).2 = Ok tt
        /\ new_calls s s' = calls_from 0 (length (_listeners s)) e)
    /\ (forall k l err,
          _listeners s !! k = Some l -> l e = Some err ->
          (forall j l', (j < k)%nat -> _listeners s !! j = Some l' ->
                        l' e = None) ->
          (notify_update line s).2 = Raise err
          /\ new_calls s s' = calls_from 0 (S k) e
          /\ (notify_new_values s = false ->
              _items_map s' !! p = Some (values e))).
Proof.
  intros Hpos Hname s'.
  destruct (notify_update_reaches_listeners s line p nm Hpos Hname)
    as (vals & s1 & Hcalls & Hls & Hcache & Hrun).
  exists {| pos := p; name := nm; values := vals |}.
  split; [reflexivity|]. split; [reflexivity|]. split.
  - intros Hquiet. subst s'. rewrite Hrun.
    rewrite call_listeners_all by exact Hquiet. simpl.
    split; [reflexivity|]. now apply new_calls_add_calls.
  - intros k l err Hk Hl Hbefore. subst s'. rewrite Hrun.
    rewrite (call_listeners_failure _ _ _ _ k l err Hk Hl Hbefore). simpl.
    split; [reflexivity|]. split; [now apply new_calls_add_calls|].
    exact Hcache.
Qed.

Lemma listeners_called_in_order_witness :
  exists e,
    pos e = 1 /\ name e = "item1"
    /\ (notify_update "1|A|B" failing).2 = Raise (OtherError "listener")
    /\ new_calls failing (notify_update "1|A|B" failing).1
       = calls_from 0 1 e
    /\ _items_map (notify_update "1|A|B" failing).1 !! 1 = Some (values e).
Proof.
  assert (Hpos : line_position "1|A|B" = Some 1)
    by (vm_compute; reflexivity).
  assert (Hname : py_index (item_names failing) (1 - 1) = Some "item1")
    by (vm_compute; reflexivity).
  destruct (listeners_called_in_order failing "1|A|B" 1 "item1" Hpos Hname)
    as (e & Hp & Hn & _ & Hfail).
  destruct (Hfail 0%nat (fun _ => Some (OtherError "listener"))
              (OtherError "listener") eq_refl eq_refl)
    as (Hr & Hc & Hm); [intros j l' Hj; lia|].
  exists e. split; [exact Hp|]. split; [exact Hn|]. split; [exact Hr|].
  split; [exact Hc|]. apply Hm. reflexivity.
Defined.






Lemma dict_zip_replicate (ks : list string) (v : string) f :
  dict (zip ks (replicate (length ks) v)) !! f
  = if decide (f ∈ ks) then Some v else None.
Proof.
  destruct (decide (f ∈ ks)) as [Hin|Hnot].
  - destruct (dict (zip ks (replicate (length ks) v)) !! f) as [x|] eqn:Hd.
    + apply dict_lookup_Some_elem, list_elem_of_lookup in Hd as [i Hi].
      apply lookup_zip_with_Some in Hi as (k' & v' & [= <- <-] & _ & Hv).
      apply lookup_replicate in Hv as [-> _]. reflexivity.
    + apply dict_lookup_None in Hd. exfalso. apply Hd.
      rewrite fst_zip_take, length_replicate, firstn_all. exact Hin.
  - apply dict_lookup_None.
    now rewrite fst_zip_take, length_replicate, firstn_all.
Qed.

(** X4.  In the mode that keeps a cache, a line whose tokens are all
    empty, one for each field, leaves the cache as it is, when the item has
    a cached value for exactly the fields of the subscription. *)
Theorem empty_tokens_keep_cache (s : LightStreamerSubscription)
  (line : string) (p : Z) (m : gmap string (option string)) :
  notify_new_values s = false ->
  line_position line = Some p ->
  is_Some (py_index (item_names s) (p - 1)) ->
  _items_map s !! p = Some m ->
  (forall f, is_Some (m !! f) <-> f ∈ field_names s) ->
  tl (line_tokens line) = replicate (length (field_names s)) "" ->
  _items_map (notify_update line s).1 = _items_map s.
Proof.
  intros Hmode Hpos [nm Hname] Hm Hdom Htok.
  destruct (notify_update_merge_effect s line p nm Hmode Hpos Hname)
    as (cs & -> & _).
  simpl. apply insert_id. rewrite Hm. f_equal.
  apply map_eq. intros f. unfold merged.
  rewrite map_lookup_imap, Htok, dict_zip_replicate, Hm. simpl.
  destruct (decide (f ∈ field_names s)) as [Hin|Hnot]; simpl.
  - apply Hdom in Hin as [x Hx]. unfold dict_get. rewrite Hx. reflexivity.
  - destruct (m !! f) as [x|] eqn:Hx; [|reflexivity].
    exfalso. apply Hnot, Hdom. eauto.
Qed.

Lemma empty_tokens_keep_cache_witness :
  let s := (notify_update "1|A|B" two_fields).1 in
  _items_map (notify_update "1||" s).1 = _items_map s.
Proof.
  intros s.
  assert (Hpos : line_position "1||" = Some 1) by (vm_compute; reflexivity).
  assert (Hname : is_Some (py_index (item_names s) (1 - 1)))
    by (eexists; vm_compute; reflexivity).
  assert (Hm : _items_map s !! 1
               = Some (dict [("f1", Some "A"); ("f2", Some "B")]))
    by (vm_compute; reflexivity).
  assert (Htok : tl (line_tokens "1||")
                 = replicate (length (field_names s)) "")
    by (vm_compute; reflexivity).
  apply (empty_tokens_keep_cache s "1||" 1 _ eq_refl Hpos Hname Hm);
    [|exact Htok].
  intros f. change (field_names s) with ["f1"; "f2"].
  unfold dict. cbn [foldl fst snd].
  rewrite !elem_of_cons, elem_of_nil. split.
  - intros [x Hx].
    destruct (decide (f = "f2")) as [->|H2]; [right; left; reflexivity|].
    destruct (decide (f = "f1")) as [->|H1]; [left; reflexivity|].
    rewrite !lookup_insert_ne, lookup_empty in Hx by congruence.
    discriminate.
  - intros [->|[->|[]]].
    + rewrite lookup_insert_ne by discriminate.
      rewrite lookup_insert_eq. eauto.
    + rewrite lookup_insert_eq. eauto.
Defined.

(** ** [subscribe]: the request sent *)

(** The keys of the parameters sent. *)
Lemma _encode_params_elem params k v :
  (k, v) ∈ _encode_params params <-> (k, v) ∈ params /\ truthy v = true.
Proof.
  unfold _encode_params. rewrite !list_elem_of_In, filter_In. simpl. tauto.
Qed.

(** X5.  With a session id and a control link, [subscribe] sends one
    request, to the control path of the control link.  Its body holds only
    parameters of true value: [LS_snapshot] is sent exactly when the
    subscription asks for a snapshot, [LS_data_adapter] exactly when the
    adapter is not the empty string, and [LS_op] is [add]. *)
Theorem subscribe_request (sub : LightStreamerSubscription)
  (c : LightStreamerClient) (sid : string) (cu : url) :
  _session c !! "SessionId" = Some sid ->
  _control_url c = Some cu ->
  let key := _current_subscription_key c + 1 in
  let body :=
    _encode_params (add_request sub key ++ [("LS_session", PStr sid)])%list in
  requests (subscribe sub c).1 =
    (requests c ++
       [{| req_base := cu; req_path := CONTROL_URL_PATH;
           req_body := body |}])%list
  /\ (forall k v, (k, v) ∈ body -> truthy v = true)
  /\ (forall v, ("LS_snapshot", v) ∈ body <->
                v = PBool true /\ snapshot sub = true)
  /\ (forall v, ("LS_data_adapter", v) ∈ body <->
                v = PStr (adapter sub) /\ adapter sub <> "")
  /\ ("LS_op", PStr OP_ADD) ∈ body.
Proof.
  intros Hsid Hcu key body.
  split.
  { rewrite subscribe_run.
    match goal with
    | |- requests _ = ?X => apply (and_then_post (fun st => requests st = X))
    end; [|intros ?; frame].
    rewrite (_control_run (registered sub c) sid cu _ Hsid Hcu).
    cbn [network registered set_subscriptions set_current_subscription_key].
    destruct (network c) as [|[[|[t|e] evs]|e] rest]; reflexivity. }
  split.
  { intros k v Hin. now apply _encode_params_elem in Hin. }
  split.
  { intros v. subst body. rewrite _encode_params_elem. unfold add_request.
    rewrite elem_of_app, !elem_of_cons, elem_of_nil. split.
    - intros [Hin Ht].
      repeat destruct Hin as [Hin|Hin]; try discriminate;
        try (now destruct Hin).
      injection Hin as ->. simpl in Ht. now rewrite Ht.
    - intros [-> Hs]. split; [|reflexivity].
      left. right. right. left. now rewrite Hs. }
  split.
  { intros v. subst body. rewrite _encode_params_elem. unfold add_request.
    rewrite elem_of_app, !elem_of_cons, elem_of_nil. split.
    - intros [Hin Ht].
      repeat destruct Hin as [Hin|Hin]; try discriminate;
        try (now destruct Hin).
      injection Hin as ->. simpl in Ht. split; [reflexivity|].
      intros He. rewrite He in Ht. discriminate.
    - intros [-> Hs]. split; [left; do 3 right; now left|]. simpl.
      destruct (String.eqb_spec (adapter sub) "");
        [contradiction | reflexivity]. }
  subst body. apply _encode_params_elem. split; [|reflexivity].
  unfold add_request. apply elem_of_app. left.
  apply list_elem_of_further, list_elem_of_here.
Qed.

Lemma subscribe_request_witness :
  let c := connected [] [ok_answer] in
  let body :=
    _encode_params
      (add_request two_fields 1 ++ [("LS_session", PStr "S1")])%list in
  requests (subscribe two_fields c).1 =
    (requests c ++
       [{| req_base := control_address; req_path := CONTROL_URL_PATH;
           req_body := body |}])%list
  /\ ("LS_op", PStr OP_ADD) ∈ body.
Proof.
  intros c body.
  assert (Hsid : _session c !! "SessionId" = Some "S1")
    by (vm_compute; reflexivity).
  assert (Hcu : _control_url c = Some control_address)
    by (vm_compute; reflexivity).
  destruct (subscribe_request two_fields c "S1" control_address Hsid Hcu)
    as (Hreq & _ & _ & _ & Hop).
  split; [exact Hreq | exact Hop].
Defined.

(** X6.  On a client whose session holds no [SessionId], [subscribe]
    raises [KeyError] and sends nothing; the key counter is incremented and
    the subscription is registered under the new key all the same. *)
Theorem subscribe_without_session (sub : LightStreamerSubscription)
  (c : LightStreamerClient) :
  _session c !! "SessionId" = None ->
  exists c',
    subscribe sub c = (c', Raise KeyError)
    /\ _current_subscription_key c' = _current_subscription_key c + 1
    /\ _subscriptions c' =
         <[_current_subscription_key c + 1 := sub]> (_subscriptions c)
    /\ requests c' = requests c
    /\ network c' = network c.
Proof.
  intros Hno. exists (registered sub c). split; [|repeat split].
  rewrite subscribe_run. unfold and_then at 1. unfold _control.
  erewrite and_then_ok by reflexivity.
  cbn [_session registered set_subscriptions set_current_subscription_key].
  rewrite Hno. reflexivity.
Qed.

Lemma subscribe_without_session_witness :
  exists c',
    subscribe two_fields (demo_client []) = (c', Raise KeyError)
    /\ _current_subscription_key c' = 1
    /\ _subscriptions c' !! 1 = Some two_fields
    /\ requests c' = [].
Proof.
  destruct (subscribe_without_session two_fields (demo_client []) eq_refl)
    as (c' & Hrun & Hkey & Hsubs & Hreq & _).
  exists c'. split; [exact Hrun|]. split; [exact Hkey|].
  split; [|exact Hreq].
  rewrite Hsubs. apply lookup_insert_eq.
Defined.

(** ** [_forward_update_message] and the loop of [_receive] *)




Lemma startswith_nil s : PyStr.startswith s "" = true.
Proof. unfold PyStr.startswith. now destruct s. Qed.

Lemma classify_preamble m :
  PyStr.startswith m "Preamble" = true -> classify m = PreambleLine.
Proof.
  intros H. pose proof H as H0.
  apply startswith_cons in H as (r1 & -> & H).
  apply startswith_cons in H as (r2 & -> & H).
  unfold classify. rewrite H0. unfold PyStr.strip, PyStr.rstrip.
  rewrite !rstrip_by_cons by reflexivity. reflexivity.
Qed.

(** X8.  A [PROBE] line and a line that starts with [Preamble] are read
    and skipped: the round changes nothing but the position in the stream,
    and the loop of [_receive] goes on with the lines that follow. *)
Theorem keepalive_lines_are_skipped (c : LightStreamerClient) (raw : string)
  (rest : list read_event) :
  _stream_connection c = Some (Line raw :: rest) ->
  PyStr.rstrip raw = PROBE_CMD
  \/ PyStr.startswith (PyStr.rstrip raw) "Preamble" = true ->
  receive_round c = (advance rest c, Ok None)
  /\ receive_loop c = receive_loop (advance rest c).
Proof.
  intros Hconn Hkind.
  assert (Hclass : classify (PyStr.rstrip raw) = ProbeLine
                   \/ classify (PyStr.rstrip raw) = PreambleLine).
  { destruct Hkind as [-> | H]; [now left | right].
    now apply classify_preamble. }
  assert (Hne : classify (PyStr.rstrip raw) <> EmptyLine)
    by (destruct Hclass; congruence).
  assert (Hround : receive_round c = (advance rest c, Ok None)).
  { rewrite (receive_round_line c raw rest Hconn).
    pose proof (on_message_class (PyStr.rstrip raw) (advance rest c) Hne)
      as Hon.
    destruct (String.eqb (PyStr.strip (PyStr.rstrip raw)) "") eqn:He.
    - apply classify_empty in He. congruence.
    - destruct Hclass as [Hc|Hc]; rewrite Hc in Hon; exact Hon. }
  split; [exact Hround|].
  rewrite receive_loop_unfold at 1. now rewrite Hround.
Qed.

Lemma keepalive_lines_are_skipped_witness :
  let c := connected ["PROBE"; "END"] [] in
  receive_round c = (advance [Line "END"] c, Ok None)
  /\ receive_loop c = receive_loop (advance [Line "END"] c).
Proof.
  intros c.
  assert (Hconn : _stream_connection c = Some [Line "PROBE"; Line "END"])
    by (vm_compute; reflexivity).
  assert (Hprobe : PyStr.rstrip "PROBE" = PROBE_CMD)
    by (vm_compute; reflexivity).
  exact (keepalive_lines_are_skipped c "PROBE" [Line "END"] Hconn
           (or_introl Hprobe)).
Defined.

Lemma receive_loop_true_has_loop (c s' : LightStreamerClient) :
  receive_loop c = (s', Ok true) ->
  exists evs raw,
    _stream_connection c = Some evs
    /\ Line raw ∈ evs
    /\ classify (PyStr.rstrip raw) = LoopLine.
Proof.
  remember (pending_lines c) as n eqn:Hn. revert c Hn.
  induction n as [n IH] using lt_wf_ind. intros c -> Hrun.
  rewrite receive_loop_unfold in Hrun.
  destruct (_stream_connection c) as [[|[raw|e] rest]|] eqn:Hc.
  2:{ (* a line *)
    assert (Hnext : forall c1,
              _stream_connection c1 = Some rest ->
              receive_loop c1 = (s', Ok true) ->
              exists evs raw0,
                Some (Line raw :: rest) = Some evs
                /\ Line raw0 ∈ evs
                /\ classify (PyStr.rstrip raw0) = LoopLine).
    { intros c1 Hc1 Hrun1.
      destruct (IH (pending_lines c1)) with (c := c1)
        as (evs & raw0 & Hevs & Hin & Hcl); [|reflexivity|exact Hrun1|].
      - unfold pending_lines. rewrite Hc1, Hc. simpl. lia.
      - rewrite Hc1 in Hevs. injection Hevs as <-.
        exists (Line raw :: rest), raw0.
        split; [reflexivity|]. split; [|exact Hcl].
        now apply list_elem_of_further. }
    rewrite (receive_round_line c raw rest Hc) in Hrun.
    destruct (String.eqb (PyStr.strip (PyStr.rstrip raw)) "") eqn:He.
    { destruct (on_message_none (advance rest c)) as [s2 Ho].
      rewrite Ho in Hrun. discriminate. }
    assert (Hne : classify (PyStr.rstrip raw) <> EmptyLine).
    { intros Hcl. apply classify_empty in Hcl. congruence. }
    pose proof (on_message_class (PyStr.rstrip raw) (advance rest c) Hne)
      as Hon.
    destruct (classify (PyStr.rstrip raw)) eqn:Hcl; try contradiction.
    - rewrite Hon in Hrun. now apply (Hnext (advance rest c)).
    - destruct Hon as [s2 Ho]. rewrite Ho in Hrun. discriminate.
    - exists (Line raw :: rest), raw.
      split; [reflexivity|]. split; [apply list_elem_of_here | exact Hcl].
    - destruct Hon as [s2 Ho]. rewrite Ho in Hrun. discriminate.
    - destruct Hon as [s2 Ho]. rewrite Ho in Hrun. discriminate.
    - rewrite Hon in Hrun. now apply (Hnext (advance rest c)).
    - rewrite Hon in Hrun.
      apply (Hnext (_forward_update_message (PyStr.rstrip raw)
                      (advance rest c)).1); [|exact Hrun].
      apply (_forward_update_message_preserves
               (fun st => _stream_connection st = Some rest)); auto. }
  all: exfalso; unfold receive_round, and_then in Hrun;
    destruct (read_message_no_line c) as [s1 Hr];
    [ intros raw0 rest0; rewrite Hc; discriminate
    | rewrite Hr in Hrun; destruct (on_message_none s1) as [s2 Ho];
      rewrite Ho in Hrun; discriminate ].
Qed.

Lemma receive_loop_ends c evs :
  _stream_connection c = Some evs -> no_loop_line evs ->
  exists s', receive_loop c = (s', Ok false).
Proof.
  intros Hc Hno. destruct (receive_loop_returns c) as [b Hb].
  destruct (receive_loop c) as [s' r] eqn:Hrun. simpl in Hb. subst r.
  destruct b; [|now exists s'].
  destruct (receive_loop_true_has_loop c s' Hrun)
    as (evs' & raw & Hc' & Hin & Hcl).
  rewrite Hc in Hc'. injection Hc' as <-. destruct (Hno raw Hin Hcl).
Qed.

(** X9.  The loop of [_receive] asks for a rebind only if a line of the
    stream connection starts with [LOOP].  On a stream connection without
    such a line, and on a client without a stream connection, the loop ends
    without a rebind. *)
Theorem rebind_needs_loop_line (c : LightStreamerClient) :
  (forall s',
     receive_loop c = (s', Ok true) ->
     exists evs raw,
       _stream_connection c = Some evs
       /\ Line raw ∈ evs
       /\ classify (PyStr.rstrip raw) = LoopLine)
  /\ (forall evs,
        _stream_connection c = Some evs -> no_loop_line evs ->
        exists s', receive_loop c = (s', Ok false))
  /\ (_stream_connection c = None ->
      exists s', receive_loop c = (s', Ok false)).
Proof.
  split; [|split].
  - intros s'. apply receive_loop_true_has_loop.
  - intros evs. apply receive_loop_ends.
  - intros Hnone. destruct (receive_loop_returns c) as [b Hb].
    destruct (receive_loop c) as [s' r] eqn:Hrun. simpl in Hb. subst r.
    destruct b; [|now exists s'].
    destruct (receive_loop_true_has_loop c s' Hrun) as (evs & _ & Hc & _).
    congruence.
Qed.

Lemma rebind_needs_loop_line_witness :
  let c := connected ["END"] [] in
  exists s', receive_loop c = (s', Ok false).
Proof.
  intros c.
  destruct (rebind_needs_loop_line c) as (_ & Hends & _).
  apply (Hends [Line "END"]); [vm_compute; reflexivity|].
  intros raw Hin. apply list_elem_of_singleton in Hin. injection Hin as ->.
  vm_compute. discriminate.
Defined.

(** X10.  No operation other than [subscribe] registers a key: after
    [connect], [bind], [disconnect], [unsubscribe], [unsubscribe_all] or the
    run of a stream thread, every registered key was registered before. *)
Theorem only_subscribe_registers (o : operation) (c : LightStreamerClient) :
  (forall sub, o <> Subscribe sub) ->
  forall k, is_Some (_subscriptions (exec o c) !! k) ->
            is_Some (_subscriptions c !! k).
Proof.
  intros Ho.
  assert (Hupd : forall k v st,
            is_Some (_subscriptions st !! k) -> registered_keys_within c st ->
            registered_keys_within c
              (set_subscriptions (<[k := v]> (_subscriptions st)) st)).
  { intros k v st Hk H k'. simpl.
    destruct (decide (k = k')) as [<-|Hne].
    - intros _. now apply H.
    - rewrite lookup_insert_ne by assumption. apply H. }
  assert (Hdel : forall k st,
            registered_keys_within c st ->
            registered_keys_within c
              (set_subscriptions (delete k (_subscriptions st)) st)).
  { intros k st H k' [x Hx]. simpl in Hx.
    apply lookup_delete_Some in Hx as [_ Hx]. apply H. eauto. }
  assert (Hclear : preserves (registered_keys_within c) clear_session_data).
  { intros st _ k [x Hx]. simpl in Hx. now rewrite lookup_empty in Hx. }
  assert (Hmain : registered_keys_within c (exec o c)).
  { destruct o; simpl.
    - apply connect_preserves; first [intros; assumption | now intros k].
    - apply bind_preserves; first [intros; assumption | now intros k].
    - apply disconnect_preserves;
        first [exact Hupd | exact Hdel | exact Hclear | intros; assumption
              | now intros k].
    - now contradiction (Ho subscription).
    - apply unsubscribe_preserves;
        first [exact Hupd | exact Hdel | intros; assumption | now intros k].
    - apply unsubscribe_all_preserves;
        first [exact Hupd | exact Hdel | intros; assumption | now intros k].
    - apply run_thread_preserves;
        first [exact Hupd | exact Hdel | exact Hclear | intros; assumption
              | now intros k]. }
  exact Hmain.
Qed.

Lemma only_subscribe_registers_witness :
  (forall sub, Unsubscribe 1 <> Subscribe sub)
  /\ is_Some (_subscriptions pushed !! 2).
Proof.
  assert (Hop : forall sub, Unsubscribe 1 <> Subscribe sub)
    by (intros sub; discriminate).
  split; [exact Hop|].
  apply (only_subscribe_registers (Unsubscribe 1) pushed Hop 2).
  vm_compute. eexists. reflexivity.
Defined.

(** ** Lines that open with an integer *)

Lemma rstrip_all_space s :
  all_space s = true -> PyStr.rstrip_by PyStr.is_space s = "".
Proof.
  induction s as [|c r IH]; [reflexivity|]. simpl.
  intros H. apply andb_true_iff in H as [Hc Hr].
  now rewrite (IH Hr), Hc.
Qed.

Lemma rstrip_not_all_space s :
  all_space s = false -> PyStr.rstrip_by PyStr.is_space s <> "".
Proof.
  induction s as [|c r IH]; [discriminate|]. simpl. intros H.
  destruct (PyStr.rstrip_by PyStr.is_space r) eqn:Hr; [|discriminate].
  destruct (PyStr.is_space c) eqn:Hc; [|discriminate].
  simpl in H. destruct (all_space r); [discriminate|]. now exfalso; apply IH.
Qed.

Lemma lstrip_all_space s :
  PyStr.lstrip_by PyStr.is_space s = "" <-> all_space s = true.
Proof.
  induction s as [|c r IH]; [easy|]. simpl.
  destruct (PyStr.is_space c); simpl; [exact IH|]. split; discriminate.
Qed.

Lemma all_space_rstrip s :
  all_space (PyStr.rstrip_by PyStr.is_space s) = all_space s.
Proof.
  induction s as [|c r IH]; [reflexivity|]. simpl.
  destruct (PyStr.rstrip_by PyStr.is_space r) eqn:Hr.
  - simpl in IH. rewrite <- IH, andb_true_r.
    destruct (PyStr.is_space c) eqn:Hc; simpl; [reflexivity|].
    now rewrite Hc.
  - simpl. simpl in IH. now rewrite IH.
Qed.

Lemma strip_empty s : PyStr.strip s = "" <-> all_space s = true.
Proof.
  unfold PyStr.strip, PyStr.rstrip.
  now rewrite lstrip_all_space, all_space_rstrip.
Qed.

Lemma digits_opens acc s k :
  PyStr.digits acc false s = Some k ->
  exists c r, s = String c r /\ PyStr.digit_val c <> None.
Proof.
  destruct s as [|c r]; simpl; [discriminate|].
  destruct (PyStr.digit_val c) eqn:Hd.
  - intros _. exists c, r. split; [reflexivity|]. congruence.
  - rewrite andb_false_r. discriminate.
Qed.

Lemma int_strip_opens tok k :
  PyStr.int tok = Some k ->
  exists c r, PyStr.strip tok = String c r
              /\ PyStr.is_space c = false /\ opens_integer c = true.
Proof.
  unfold PyStr.int. destruct (PyStr.strip tok) as [|c r].
  - discriminate.
  - intros Hint. exists c, r. split; [reflexivity|].
    destruct c as [[] [] [] [] [] [] [] []]; simpl in Hint;
      try discriminate Hint; split; reflexivity.
Qed.

Lemma int_opens tok k :
  PyStr.int tok = Some k ->
  all_space tok = false
  /\ exists c r, tok = String c r /\ opens_integer c = true.
Proof.
  intros Hint.
  destruct (int_strip_opens tok k Hint) as (c' & r' & Hstrip & Hsp & Hop).
  assert (Hns : all_space tok = false).
  { destruct (all_space tok) eqn:Ha; [|reflexivity].
    apply strip_empty in Ha. congruence. }
  split; [exact Hns|].
  destruct tok as [|c r]; [discriminate|]. exists c, r.
  split; [reflexivity|].
  destruct (PyStr.is_space c) eqn:Hc.
  - unfold opens_integer. now rewrite Hc.
  - unfold PyStr.strip, PyStr.rstrip in Hstrip.
    rewrite rstrip_by_cons in Hstrip by exact Hc.
    simpl in Hstrip. rewrite Hc in Hstrip. injection Hstrip as -> _.
    exact Hop.
Qed.

Lemma split1_head_cons sep c r :
  Ascii.eqb c sep = false ->
  exists t, hd "" (PyStr.split1 sep (String c r)) = String c t
            /\ t = hd "" (PyStr.split1 sep r).
Proof.
  intros H. simpl. rewrite H.
  destruct (PyStr.split1 sep r) as [|t ts]; simpl; eauto.
Qed.

Lemma split1_head_space sep s :
  all_space s = true -> all_space (hd "" (PyStr.split1 sep s)) = true.
Proof.
  induction s as [|c r IH]; [reflexivity|]. simpl.
  intros H. apply andb_true_iff in H as [Hc Hr].
  destruct (Ascii.eqb c sep); [reflexivity|].
  specialize (IH Hr).
  destruct (PyStr.split1 sep r) as [|t ts]; simpl in *;
    now rewrite Hc.
Qed.

Lemma opens_integer_not_letter c :
  opens_integer c = true ->
  c <> "P"%char /\ c <> "E"%char /\ c <> "L"%char /\ c <> "S"%char.
Proof. intros H. repeat split; intros ->; discriminate. Qed.

Lemma startswith_other_head c r a p :
  c <> a -> PyStr.startswith (String c r) (String a p) = false.
Proof.
  intros H. unfold PyStr.startswith. cbn [String.prefix].
  destruct (ascii_dec a c) as [->|_]; [contradiction | reflexivity].
Qed.

Lemma eqb_other_head c r a p :
  c <> a -> String.eqb (String c r) (String a p) = false.
Proof. intros H. apply String.eqb_neq. congruence. Qed.

Lemma classify_integer_key (m : string) (k : Z) :
  message_table m = Some k -> classify m = DataLine.
Proof.
  unfold message_table. intros Hint.
  destruct (int_opens _ k Hint) as (Hns & c & t & Htok & Hop).
  assert (Hm : exists r, m = String c r).
  { destruct m as [|c0 r]; [discriminate|].
    destruct (Ascii.eqb c0 ",") eqn:Hc0.
    - simpl in Htok. rewrite Hc0 in Htok. discriminate.
    - destruct (split1_head_cons "," c0 r Hc0) as (t' & Hhd & _).
      rewrite Hhd in Htok. injection Htok as -> _. now exists r. }
  destruct Hm as [r ->].
  assert (Hstrip : String.eqb (PyStr.strip (String c r)) "" = false).
  { apply String.eqb_neq. intros He. apply strip_empty in He.
    apply (split1_head_space ",") in He. congruence. }
  destruct (opens_integer_not_letter c Hop) as (HP & HE & HL & HS).
  unfold classify. rewrite Hstrip.
  unfold PROBE_CMD, ERROR_CMD, LOOP_CMD, SYNC_ERROR_CMD, END_CMD.
  rewrite eqb_other_head by exact HP.
  rewrite (startswith_other_head c r "E") by exact HE.
  rewrite (startswith_other_head c r "L") by exact HL.
  rewrite (startswith_other_head c r "S") by exact HS.
  rewrite (startswith_other_head c r "E") by exact HE.
  rewrite (startswith_other_head c r "P") by exact HP.
  reflexivity.
Qed.

Lemma receive_round_data c raw rest :
  _stream_connection c = Some (Line raw :: rest) ->
  classify (PyStr.rstrip raw) = DataLine ->
  receive_round c =
    ((_forward_update_message (PyStr.rstrip raw) (advance rest c)).1,
     Ok None).
Proof.
  intros Hconn Hcl.
  assert (Hne : classify (PyStr.rstrip raw) <> EmptyLine) by congruence.
  rewrite (receive_round_line c raw rest Hconn).
  destruct (String.eqb (PyStr.strip (PyStr.rstrip raw)) "") eqn:He.
  { apply classify_empty in He. congruence. }
  pose proof (on_message_class (PyStr.rstrip raw) (advance rest c) Hne)
    as Hon.
  rewrite Hcl in Hon. exact Hon.
Qed.

(** X11.  A line whose text before the first comma [int] accepts is
    taken for none of the control lines: the round of [_receive] passes it to
    [_forward_update_message] and the loop goes on. *)
Theorem integer_key_is_forwarded (c : LightStreamerClient) (raw : string)
  (rest : list read_event) (k : Z) :
  _stream_connection c = Some (Line raw :: rest) ->
  message_table (PyStr.rstrip raw) = Some k ->
  classify (PyStr.rstrip raw) = DataLine
  /\ receive_round c =
       ((_forward_update_message (PyStr.rstrip raw) (advance rest c)).1,
        Ok None).
Proof.
  intros Hconn Hk.
  assert (Hcl := classify_integer_key _ k Hk).
  split; [exact Hcl|]. now apply receive_round_data.
Qed.

Lemma integer_key_is_forwarded_witness :
  let c := connected ["2,1|A|B"] [] in
  classify (PyStr.rstrip "2,1|A|B") = DataLine
  /\ receive_round c =
       ((_forward_update_message (PyStr.rstrip "2,1|A|B")
           (advance [] c)).1, Ok None).
Proof.
  intros c.
  assert (Hconn : _stream_connection c = Some [Line "2,1|A|B"])
    by (vm_compute; reflexivity).
  assert (Hkey : message_table (PyStr.rstrip "2,1|A|B") = Some 2)
    by (vm_compute; reflexivity).
  exact (integer_key_is_forwarded c "2,1|A|B" [] 2 Hconn Hkey).
Defined.



(** ** The handshake of [connect] and [bind] *)

Lemma session_round_entry st text rest k v :
  _stream_connection st = Some (Line text :: rest) ->
  session_entry text = Some (k, v) ->
  session_round st =
    (set_session (<[k := v]> (_session st))
       (set_stream_connection (Some rest) st), Ok None).
Proof.
  intros Hc He. unfold session_entry in He.
  unfold session_round, _read_from_stream.
  unfold and_then at 1. unfold and_then at 1. unfold gets at 1.
  cbv beta iota. rewrite Hc. simpl.
  destruct (String.eqb (PyStr.rstrip text) ""); [discriminate|]. simpl.
  destruct (PyStr.split1 ":" (PyStr.rstrip text)) as [|k' [|v' [|? ?]]];
    try discriminate.
  injection He as -> ->. reflexivity.
Qed.

Lemma session_round_blank st text rest :
  _stream_connection st = Some (Line text :: rest) ->
  PyStr.rstrip text = "" ->
  session_round st = (set_stream_connection (Some rest) st, Ok (Some tt)).
Proof.
  intros Hc He.
  unfold session_round, _read_from_stream.
  unfold and_then at 1. unfold and_then at 1. unfold gets at 1.
  cbv beta iota. rewrite Hc. simpl. rewrite He. reflexivity.
Qed.






Lemma session_round_malformed st text rest :
  _stream_connection st = Some (Line text :: rest) ->
  PyStr.rstrip text <> "" ->
  (forall k v, PyStr.split1 ":" (PyStr.rstrip text) <> [k; v]) ->
  session_round st =
    (set_stream_connection (Some rest) st, Raise ValueError).
Proof.
  intros Hc Hne Hs.
  unfold session_round, _read_from_stream.
  unfold and_then at 1. unfold and_then at 1. unfold gets at 1.
  cbv beta iota. rewrite Hc. simpl.
  destruct (String.eqb_spec (PyStr.rstrip text) "") as [E|_];
    [contradiction|]. simpl.
  destruct (PyStr.split1 ":" (PyStr.rstrip text)) as [|k' [|v' [|? ?]]]
    eqn:E; try reflexivity.
  destruct (Hs k' v' eq_refl).
Qed.

Lemma session_loop_rejects (texts : list string) :
  forall entries st bad more,
  _stream_connection st =
    Some ((Line <$> texts) ++ Line bad :: more)%list ->
  mapM session_entry texts = Some entries ->
  PyStr.rstrip bad <> "" ->
  (forall k v, PyStr.split1 ":" (PyStr.rstrip bad) <> [k; v]) ->
  run_loop pending_lines session_round st =
    (set_session (with_entries (_session st) entries)
       (set_stream_connection (Some more) st), Raise ValueError).
Proof.
  induction texts as [|t texts IH]; intros entries st bad more Hc He Hb Hs.
  - injection He as <-. rewrite session_loop_unfold.
    rewrite (session_round_malformed st bad more Hc Hb Hs).
    destruct st. reflexivity.
  - simpl in He. destruct (session_entry t) as [[k v]|] eqn:Ht;
      [|discriminate]. simpl in He.
    destruct (mapM session_entry texts) as [es|] eqn:Hes; [|discriminate].
    injection He as <-.
    rewrite session_loop_unfold.
    rewrite (session_round_entry st t _ k v Hc Ht).
    rewrite (IH es (set_session (<[k := v]> (_session st))
                      (set_stream_connection
                         (Some ((Line <$> texts) ++ Line bad :: more)%list)
                         st)) bad more eq_refl eq_refl Hb Hs).
    reflexivity.
Qed.

Lemma _handle_stream_rejects texts entries bad more st :
  _stream_connection st =
    Some ((Line <$> texts) ++ Line bad :: more)%list ->
  mapM session_entry texts = Some entries ->
  PyStr.rstrip bad <> "" ->
  (forall k v, PyStr.split1 ":" (PyStr.rstrip bad) <> [k; v]) ->
  _handle_stream OK_CMD st =
    (set_session (with_entries (_session st) entries)
       (set_stream_connection (Some more)
          (set_output
             (output st ++ [Log INFO "Successfully connected to <%s>" []])
             st)), Raise ValueError).
Proof.
  intros Hc He Hb Hs. unfold _handle_stream, OK_CMD.
  rewrite String.eqb_refl.
  unfold and_then at 1. unfold and_then at 1. unfold and_then at 1.
  unfold and_then at 1. unfold log at 1, modify at 1. cbv beta iota.
  rewrite (session_loop_rejects texts entries (set_output _ st) bad
             more Hc He Hb Hs).
  reflexivity.
Qed.

Lemma split1_without sep s :
  contains sep s = false -> PyStr.split1 sep s = [s].
Proof.
  induction s as [|a r IH]; simpl; [reflexivity|].
  destruct (Ascii.eqb a sep); [discriminate|]. simpl. intros H.
  now rewrite (IH H).
Qed.

Lemma split1_with sep k v :
  contains sep k = false ->
  PyStr.split1 sep (k ++ String sep v) = [k; v].
Proof.
  induction k as [|a r IH]; simpl.
  - now rewrite Ascii.eqb_refl.
  - destruct (Ascii.eqb a sep); [discriminate|]. simpl. intros H.
    now rewrite (IH H).
Qed.

Lemma String_eqb_app_sep k sep v :
  String.eqb (k ++ String sep v) "" = false.
Proof. now destruct k. Qed.

(** X14.  A line of the handshake is split at its first colon: the text
    before it is the key and all the text after it, colons included, is the
    value.  A line that is not empty and holds no colon raises [ValueError];
    an empty line ends the handshake.  In each case the line is read. *)
Theorem session_line_splits_at_first_colon (st : LightStreamerClient)
  (text : string) (rest : list read_event) :
  _stream_connection st = Some (Line text :: rest) ->
  (forall k v,
     PyStr.rstrip text = k ++ String ":" v -> contains ":" k = false ->
     session_round st =
       (set_session (<[k := v]> (_session st)) (advance rest st), Ok None))
  /\ (PyStr.rstrip text <> "" ->
      contains ":" (PyStr.rstrip text) = false ->
      session_round st = (advance rest st, Raise ValueError))
  /\ (PyStr.rstrip text = "" ->
      session_round st = (advance rest st, Ok (Some tt))).
Proof.
  intros Hc. split; [|split].
  - intros k v Hline Hk.
    apply (session_round_entry st text rest k v Hc).
    unfold session_entry. rewrite Hline, String_eqb_app_sep.
    now rewrite (split1_with ":" k v Hk).
  - intros Hne Hno.
    apply (session_round_malformed st text rest Hc Hne).
    intros k v E. rewrite (split1_without _ _ Hno) in E. discriminate.
  - intros He. exact (session_round_blank st text rest Hc He).
Qed.

Lemma session_line_splits_at_first_colon_witness :
  let st := set_stream_connection (Some [Line "Server:a:b"; Line ""])
              (demo_client []) in
  session_round st =
    (set_session (<["Server" := "a:b"]> (_session st))
       (advance [Line ""] st), Ok None).
Proof.
  intros st.
  destruct (session_line_splits_at_first_colon st "Server:a:b" [Line ""]
              eq_refl) as (Hentry & _ & _).
  apply (Hentry "Server" "a:b"); vm_compute; reflexivity.
Defined.

(** X15.  When a line of the handshake holds no colon, [connect] raises
    [ValueError]: the entries of the lines before it stay in the session and
    the stream connection stays open after that line, but no thread is
    started and the control link is not set. *)
Theorem connect_session_line_without_colon (c : LightStreamerClient)
  (answers : list call_result) (first : string)
  (texts : list string) (entries : list (string * string))
  (bad : string) (more : list read_event) :
  network c =
    Response (Line first :: (Line <$> texts) ++ Line bad :: more)%list
      :: answers ->
  PyStr.rstrip first = OK_CMD ->
  mapM session_entry texts = Some entries ->
  PyStr.rstrip bad <> "" ->
  contains ":" (PyStr.rstrip bad) = false ->
  exists c',
    connect c = (c', Raise ValueError) /\
    _session c' = with_entries (_session c) entries /\
    _stream_connection c' = Some more /\
    _stream_connection_thread c' = _stream_connection_thread c /\
    threads c' = threads c /\
    _control_url c' = _control_url c.
Proof.
  intros Hn Hf He Hb Hs. eexists. split.
  - unfold connect.
    unfold and_then at 1, get at 1. cbv beta iota.
    unfold and_then at 1. rewrite _call_run. rewrite Hn. cbv beta iota.
    unfold and_then at 1. unfold and_then at 1. unfold modify at 1.
    cbv beta iota. unfold _read_from_stream at 1.
    unfold and_then at 1. unfold gets at 1. cbv beta iota.
    cbn [_stream_connection set_stream_connection]. cbv beta iota.
    unfold and_then at 1. unfold modify at 1, ret at 1. cbv beta iota.
    rewrite Hf.
    rewrite (_handle_stream_rejects texts entries bad more
               (set_stream_connection _ _) eq_refl He Hb).
    + reflexivity.
    + intros k v E. rewrite (split1_without _ _ Hs) in E. discriminate.
  - repeat split.
Qed.

Lemma connect_session_line_without_colon_witness :
  let c := demo_client
             [Response [Line "OK"; Line "SessionId:S1"; Line "garbage";
                        Line ""]] in
  exists c',
    connect c = (c', Raise ValueError)
    /\ _session c' = with_entries ∅ [("SessionId", "S1")]
    /\ _stream_connection c' = Some [Line ""]
    /\ _stream_connection_thread c' = None
    /\ threads c' = []
    /\ _control_url c' = None.
Proof.
  intros c.
  apply (connect_session_line_without_colon c [] "OK" ["SessionId:S1"]
           [("SessionId", "S1")] "garbage" [Line ""]);
    try (vm_compute; reflexivity).
  vm_compute. discriminate.
Defined.



(** ** [disconnect] *)

(** X17.  [disconnect] on a connected client whose stream holds no
    [LOOP] line, when the server answers the request: the request [destroy]
    goes to the control link with the session id, the stream thread runs to
    its end, and the client is left with no thread, no stream connection, an
    empty session, no subscriptions and a key counter of zero. *)
Theorem disconnect_closes_session (c : LightStreamerClient)
  (evs : list read_event) (sid : string) (cu : url)
  (answer : string) (more : list read_event) (answers : list call_result)
  (i : nat) (n : Z) :
  _stream_connection c = Some evs ->
  no_loop_line evs ->
  _session c !! "SessionId" = Some sid ->
  _control_url c = Some cu ->
  network c = Response (Line answer :: more) :: answers ->
  _stream_connection_thread c = Some i ->
  threads c !! i = Some {| thread_number := n; alive := true |} ->
  exists c',
    disconnect c = (c', Ok tt)
    /\ requests c' =
         (requests c ++
            [{| req_base := cu; req_path := CONTROL_URL_PATH;
                req_body :=
                  _encode_params
                    [("LS_op", PStr OP_DESTROY);
                     ("LS_session", PStr sid)] |}])%list
    /\ network c' = answers
    /\ threads c' = <[i := {| thread_number := n; alive := false |}]>
                      (threads c)
    /\ _stream_connection_thread c' = None
    /\ _stream_connection c' = None
    /\ _session c' = ∅
    /\ _subscriptions c' = ∅
    /\ _current_subscription_key c' = 0.
Proof.
  intros Hconn Hno Hsid Hcu Hnet Hth Hi.
  set (s1 := set_network answers
               (sent cu [("LS_op", PStr OP_DESTROY)] sid c)).
  set (s2 := set_threads
               (<[i := {| thread_number := n; alive := false |}]>
                  (threads c)) s1).
  destruct (receive_loop_ends s2 evs Hconn Hno) as [s3 Hloop].
  assert (Hs3 : requests s3 = requests s2 /\ network s3 = network s2
                /\ threads s3 = threads s2
                /\ _stream_connection_thread s3 = Some i).
  { replace s3 with (receive_loop s2).1 by now rewrite Hloop.
    apply (receive_loop_preserves
             (fun st => requests st = requests s2
                        /\ network st = network s2
                        /\ threads st = threads s2
                        /\ _stream_connection_thread st = Some i));
      [intros v s H; exact H | intros k v s _ H; exact H
      | intros v s H; exact H |].
    repeat split. exact Hth. }
  destruct Hs3 as (Hr3 & Hn3 & Ht3 & Hh3).
  assert (Hjoin : _join s1 =
            (set_stream_connection_thread None
               (set_current_subscription_key 0
                  (set_subscriptions ∅
                     (set_session ∅ (set_stream_connection None s3)))),
             Ok tt)).
  { unfold _join. erewrite and_then_ok by reflexivity.
    change (_stream_connection_thread s1) with (_stream_connection_thread c).
    rewrite Hth. unfold and_then at 1. unfold run_thread.
    erewrite and_then_ok by reflexivity.
    change (threads s1) with (threads c). rewrite Hi.
    unfold and_then at 1. unfold modify at 1. cbv beta iota.
    fold s2. unfold try_except, _receive. unfold and_then at 1.
    rewrite Hloop. reflexivity. }
  eexists. split.
  - unfold disconnect. erewrite and_then_ok by reflexivity. rewrite Hconn.
    unfold and_then at 1. unfold and_then at 1.
    rewrite (_control_run c sid cu _ Hsid Hcu), Hnet.
    unfold first_line, ret. fold s1. rewrite Hjoin. reflexivity.
  - cbn [requests network threads _stream_connection_thread
         _stream_connection _session _subscriptions
         _current_subscription_key set_output set_stream_connection_thread
         set_current_subscription_key set_subscriptions set_session
         set_stream_connection].
    rewrite Hr3, Hn3, Ht3. repeat split.
Qed.

Lemma disconnect_closes_session_witness :
  let c := connected ["END"] [ok_answer] in
  exists c',
    disconnect c = (c', Ok tt)
    /\ network c' = []
    /\ threads c' = [{| thread_number := 0; alive := false |}]
    /\ _stream_connection_thread c' = None
    /\ _stream_connection c' = None
    /\ _session c' = ∅
    /\ _subscriptions c' = ∅
    /\ _current_subscription_key c' = 0.
Proof.
  intros c.
  assert (Hconn : _stream_connection c = Some [Line "END"])
    by (vm_compute; reflexivity).
  assert (Hno : no_loop_line [Line "END"]).
  { intros raw Hin. apply list_elem_of_singleton in Hin.
    injection Hin as ->. vm_compute. discriminate. }
  assert (Hsid : _session c !! "SessionId" = Some "S1")
    by (vm_compute; reflexivity).
  assert (Hcu : _control_url c = Some control_address)
    by (vm_compute; reflexivity).
  assert (Hnet : network c = Response (Line "OK" :: []) :: [])
    by (vm_compute; reflexivity).
  assert (Hth : _stream_connection_thread c = Some 0%nat)
    by (vm_compute; reflexivity).
  assert (Hi : threads c !! 0%nat
               = Some {| thread_number := 0; alive := true |})
    by (vm_compute; reflexivity).
  destruct (disconnect_closes_session c [Line "END"] "S1" control_address
              "OK" [] [] 0%nat 0 Hconn Hno Hsid Hcu Hnet Hth Hi)
    as (c' & Hrun & _ & Hn & Ht & Hh & Hc & Hs & Hsub & Hk).
  exists c'. split; [exact Hrun|]. split; [exact Hn|].
  split; [rewrite Ht; vm_compute; reflexivity|].
  split; [exact Hh|]. split; [exact Hc|]. split; [exact Hs|].
  split; [exact Hsub | exact Hk].
Defined.

Lemma run_thread_never_raises i : never_raises (run_thread i).
Proof.
  intros s. unfold run_thread. unfold and_then at 1, gets at 1.
  cbv beta iota.
  destruct (threads s !! i) as [[n [|]]|]; try (now exists tt).
  apply (never_raises_and_then
           (modify (set_threads
                      (<[i := {| thread_number := n; alive := false |}]>
                         (threads s))))
           (fun _ => try_except _receive print_traceback)).
  - apply never_raises_modify.
  - intros _. apply never_raises_try_except, print_traceback_never_raises.
Qed.

Lemma _join_never_raises : never_raises _join.
Proof.
  intros s. unfold _join. unfold and_then at 1, gets at 1. cbv beta iota.
  destruct (_stream_connection_thread s) as [i|]; [|now exists tt].
  apply (never_raises_and_then (run_thread i)
           (fun _ => modify (set_stream_connection_thread None))).
  - apply run_thread_never_raises.
  - intros _. apply never_raises_modify.
Qed.

(** X18.  When [disconnect] raises, the exception is that of the request
    [destroy], and the thread was not joined: the stream connection, the
    thread, the session, the subscriptions, the key counter and the output
    are as before. *)
Theorem failed_disconnect_joins_nothing (c : LightStreamerClient)
  (e : exn) :
  (disconnect c).2 = Raise e ->
  let c' := (disconnect c).1 in
  is_Some (_stream_connection c)
  /\ (_control [("LS_op", PStr OP_DESTROY)] c).2 = Raise e
  /\ _stream_connection c' = _stream_connection c
  /\ _stream_connection_thread c' = _stream_connection_thread c
  /\ threads c' = threads c
  /\ _session c' = _session c
  /\ _subscriptions c' = _subscriptions c
  /\ _current_subscription_key c' = _current_subscription_key c
  /\ output c' = output c.
Proof.
  intros Hr c'. subst c'.
  destruct (_stream_connection c) as [evs|] eqn:Hconn.
  2:{ unfold disconnect, and_then, gets in Hr. rewrite Hconn in Hr.
      discriminate Hr. }
  destruct (_control [("LS_op", PStr OP_DESTROY)] c) as [s1 [a|e1]] eqn:Hctl.
  - exfalso. unfold disconnect, and_then, gets in Hr.
    rewrite Hconn, Hctl in Hr.
    destruct (_join_never_raises s1) as [[] Hj].
    destruct (_join s1) as [s2 r2]. simpl in Hj. subst r2.
    discriminate Hr.
  - assert (Hrun : disconnect c = (s1, Raise e1)).
    { unfold disconnect, and_then, gets. now rewrite Hconn, Hctl. }
    rewrite Hrun in Hr |- *. simpl in Hr. injection Hr as ->.
    split; [eauto|]. split; [reflexivity|].
    rewrite <- Hconn.
    replace (s1, @Raise unit e).1
      with (_control [("LS_op", PStr OP_DESTROY)] c).1
      by now rewrite Hctl.
    apply (_control_preserves
      (fun st => _stream_connection st = _stream_connection c
         /\ _stream_connection_thread st = _stream_connection_thread c
         /\ threads st = threads c
         /\ _session st = _session c
         /\ _subscriptions st = _subscriptions c
         /\ _current_subscription_key st = _current_subscription_key c
         /\ output st = output c));
      [intros v s H; exact H | intros v s H; exact H |].
    repeat split.
Qed.

Lemma failed_disconnect_joins_nothing_witness :
  let c := connected ["END"] [CallFail (OtherError "unreachable")] in
  _stream_connection (disconnect c).1 = _stream_connection c
  /\ _stream_connection_thread (disconnect c).1 = Some 0%nat
  /\ threads (disconnect c).1 = threads c.
Proof.
  intros c.
  assert (Hfail : (disconnect c).2 = Raise (OtherError "unreachable"))
    by (vm_compute; reflexivity).
  destruct (failed_disconnect_joins_nothing c _ Hfail)
    as (_ & _ & Hconn & Hth & Hths & _).
  split; [exact Hconn|]. split; [|exact Hths].
  rewrite Hth. vm_compute. reflexivity.
Defined.

(** ** [unsubscribe_all] *)

Lemma lookup_foldl_delete (ks : list Z) :
  forall (m : gmap Z LightStreamerSubscription) k,
  foldl (fun m k => delete k m) m ks !! k =
    if decide (k ∈ ks) then None else m !! k.
Proof.
  induction ks as [|k0 ks IH]; intros m k; simpl.
  - destruct (decide (k ∈ [])) as [H|_]; [|reflexivity].
    now apply elem_of_nil in H.
  - rewrite IH. destruct (decide (k ∈ ks)) as [H|H].
    + rewrite decide_True; [reflexivity|]. now apply list_elem_of_further.
    + destruct (decide (k = k0)) as [->|Hne].
      * rewrite decide_True by apply list_elem_of_here.
        apply lookup_delete_eq.
      * rewrite decide_False.
        -- now apply lookup_delete_ne.
        -- intros Hin. apply elem_of_cons in Hin as [?|?]; contradiction.
Qed.

Lemma confirmed_cons k keys a answers :
  confirmed (k :: keys) (a :: answers) =
    if String.eqb (PyStr.rstrip a) OK_CMD
    then k :: confirmed keys answers else confirmed keys answers.
Proof.
  unfold confirmed. simpl.
  destruct (String.eqb (PyStr.rstrip a) OK_CMD); reflexivity.
Qed.

Lemma unsubscribe_keys_run (keys : list Z) :
  forall answers s rest sid cu,
  length answers = length keys ->
  _session s !! "SessionId" = Some sid ->
  _control_url s = Some cu ->
  network s = (((fun a => Response [Line a]) <$> answers) ++ rest)%list ->
  exists s',
    unsubscribe_keys keys s = (s', Ok tt)
    /\ _subscriptions s' =
         foldl (fun m k => delete k m) (_subscriptions s)
           (confirmed keys answers)
    /\ requests s' = (requests s ++ (delete_request cu sid <$> keys))%list
    /\ network s' = rest
    /\ _current_subscription_key s' = _current_subscription_key s
    /\ _session s' = _session s
    /\ _stream_connection s' = _stream_connection s.
Proof.
  induction keys as [|k keys IH]; intros answers s rest sid cu Hlen Hsid Hcu
    Hnet.
  - destruct answers; [|discriminate]. exists s. simpl in Hnet.
    simpl. rewrite app_nil_r. repeat split. exact Hnet.
  - destruct answers as [|a answers]; [discriminate|].
    injection Hlen as Hlen. simpl in Hnet.
    cbn [unsubscribe_keys]. unfold and_then at 1.
    rewrite (_control_run s sid cu _ Hsid Hcu), Hnet.
    unfold first_line, ret. unfold and_then at 1.
    set (s1 := set_network _ _).
    rewrite confirmed_cons.
    destruct (String.eqb (PyStr.rstrip a) OK_CMD) eqn:Ha.
    + unfold and_then at 1. unfold modify at 1. unfold log at 1.
      unfold modify at 1. cbv beta iota.
      match goal with |- context [unsubscribe_keys keys ?st] =>
        destruct (IH answers st rest sid cu Hlen Hsid Hcu eq_refl)
          as (s' & Hrun & Hsubs & Hreq & Hn & Hkey & Hses & Hconn)
      end.
      exists s'. split; [exact Hrun|].
      split; [exact Hsubs|]. split.
      { rewrite Hreq. simpl. rewrite <- app_assoc. reflexivity. }
      repeat split; assumption.
    + unfold and_then at 1. unfold log at 1 2.
      unfold modify at 1. unfold modify at 1. cbv beta iota.
      match goal with |- context [unsubscribe_keys keys ?st] =>
        destruct (IH answers st rest sid cu Hlen Hsid Hcu eq_refl)
          as (s' & Hrun & Hsubs & Hreq & Hn & Hkey & Hses & Hconn)
      end.
      exists s'. split; [exact Hrun|].
      split; [exact Hsubs|]. split.
      { rewrite Hreq. simpl. rewrite <- app_assoc. reflexivity. }
      repeat split; assumption.
Qed.

(** X19.  [unsubscribe_all] sends one request [delete] for each
    registered key, in order, and removes exactly the keys whose request the
    server answers with [OK]; the other subscriptions stay registered, and
    the key counter keeps its value. *)
Theorem unsubscribe_all_removes_confirmed (c : LightStreamerClient)
  (sid : string) (cu : url) (answers : list string)
  (rest : list call_result) :
  _session c !! "SessionId" = Some sid ->
  _control_url c = Some cu ->
  length answers = length (subscription_keys c) ->
  network c = (((fun a => Response [Line a]) <$> answers) ++ rest)%list ->
  exists c',
    unsubscribe_all c = (c', Ok tt)
    /\ (forall k,
          _subscriptions c' !! k =
            if decide (k ∈ confirmed (subscription_keys c) answers)
            then None else _subscriptions c !! k)
    /\ requests c' =
         (requests c ++
            (delete_request cu sid <$> subscription_keys c))%list
    /\ network c' = rest
    /\ _current_subscription_key c' = _current_subscription_key c
    /\ _session c' = _session c
    /\ _stream_connection c' = _stream_connection c.
Proof.
  intros Hsid Hcu Hlen Hnet.
  destruct (unsubscribe_keys_run (subscription_keys c) answers c rest sid cu
              Hlen Hsid Hcu Hnet)
    as (c' & Hrun & Hsubs & Hreq & Hn & Hkey & Hses & Hconn).
  exists c'. split.
  - unfold unsubscribe_all. erewrite and_then_ok by reflexivity. exact Hrun.
  - split; [|repeat split; assumption].
    intros k. rewrite Hsubs. apply lookup_foldl_delete.
Qed.

Lemma unsubscribe_all_removes_confirmed_witness :
  let c := exec_all [Connect; Subscribe failing; Subscribe watched]
             (demo_client
                [accepted []; ok_answer; ok_answer; ok_answer;
                 Response [Line "ERROR"]]) in
  exists c',
    unsubscribe_all c = (c', Ok tt)
    /\ _subscriptions c' !! 1 = None
    /\ _subscriptions c' !! 2 = Some watched
    /\ _current_subscription_key c' = 2.
Proof.
  intros c.
  assert (Hsid : _session c !! "SessionId" = Some "S1")
    by (vm_compute; reflexivity).
  assert (Hcu : _control_url c = Some control_address)
    by (vm_compute; reflexivity).
  assert (Hlen : length ["OK"; "ERROR"] = length (subscription_keys c))
    by (vm_compute; reflexivity).
  assert (Hnet : network c =
            (((fun a => Response [Line a]) <$> ["OK"; "ERROR"]) ++ [])%list)
    by (vm_compute; reflexivity).
  destruct (unsubscribe_all_removes_confirmed c "S1" control_address
              ["OK"; "ERROR"] [] Hsid Hcu Hlen Hnet)
    as (c' & Hrun & Hsubs & _ & _ & Hkey & _).
  exists c'. split; [exact Hrun|].
  split; [rewrite Hsubs; vm_compute; reflexivity|].
  split; [rewrite Hsubs; vm_compute; reflexivity|].
  rewrite Hkey. vm_compute. reflexivity.
Defined.
